(** * The GWAS rsid filter of PHITE risk scoring

    A shallow embedding of [risk-scoring/scripts/query_gwas.py] and the
    properties of [query_gwas] that its specification states.

    Layout: the Python built-ins the function calls ([Py]), the pandas
    operations it uses ([Pandas]), the DuckDB connection it drives
    ([DuckDB]), the function itself, and then the theorems. *)

From Stdlib Require Import ZArith List Ascii String.
From stdpp Require Import base gmap strings list pretty.

Open Scope string_scope.
Open Scope list_scope.
Open Scope nat_scope.

(** ** Python values and built-ins *)

Module Py.

(** Exceptions.  [GWASQueryError] is the class the module defines;
    [KeyError] is what pandas raises for an absent column label;
    [LibraryError] stands for every other exception raised inside pandas,
    pyarrow or duckdb, whose text is only approximated here. *)
Inductive exn :=
| GWASQueryError (msg : string)
| KeyError (key : string)
| LibraryError (msg : string).

(** [str(e)], as the f-string of the [except] clause formats it. *)
Definition str (e : exn) : string :=
  match e with
  | GWASQueryError msg => msg
  | KeyError key => "'" +:+ key +:+ "'"
  | LibraryError msg => msg
  end.

(** A call either returns a value or raises. *)
Inductive result (A : Type) :=
| Return (a : A)
| Raise (e : exn).
Arguments Return {A} a.
Arguments Raise {A} e.

#[export] Instance result_ret : MRet result := λ A a, Return a.
#[export] Instance result_bind : MBind result := λ A B f m,
  match m with
  | Return a => f a
  | Raise e => Raise e
  end.

(** [str.lower()] on the ASCII range (paths are taken to be ASCII). *)
Definition lower_char (c : ascii) : ascii :=
  let n := nat_of_ascii c in
  if (65 <=? n)%nat && (n <=? 90)%nat then ascii_of_nat (n + 32) else c.

Fixpoint lower (s : string) : string :=
  match s with
  | EmptyString => EmptyString
  | String c s' => String (lower_char c) (lower s')
  end.

(** [s.rfind(c)]: the highest index of [c] in [s], or -1. *)
Fixpoint rfind_from (c : ascii) (s : string) (i last : Z) : Z :=
  match s with
  | EmptyString => last
  | String a s' =>
      rfind_from c s' (i + 1) (if Ascii.eqb a c then i else last)
  end.

Definition rfind (s : string) (c : ascii) : Z := rfind_from c s 0 (-1).

(** The slices [s[i:j]] and [s[i:]] for indices within range. *)
Definition slice (s : string) (i j : Z) : string :=
  substring (Z.to_nat i) (Z.to_nat (j - i)) s.

Definition slice_from (s : string) (i : Z) : string :=
  substring (Z.to_nat i) (String.length s - Z.to_nat i) s.

(** The [while] loop of [genericpath._splitext]: from [filenameIndex]
    up to the last dot, is there a character that is not a dot?  The
    first argument counts the iterations left. *)
Fixpoint stem_found (n : nat) (p : string) (filenameIndex : Z) : bool :=
  match n with
  | O => false
  | S n' =>
      if negb (String.eqb (slice p filenameIndex (filenameIndex + 1)) ".")
      then true
      else stem_found n' p (filenameIndex + 1)
  end.

(** [os.path.splitext] of posixpath: separator [/], extension
    separator [.]; leading dots of the last component are not an
    extension. *)
Definition splitext (p : string) : string * string :=
  let sepIndex := rfind p "/" in
  let dotIndex := rfind p "." in
  if (sepIndex <? dotIndex)%Z
     && stem_found (Z.to_nat (dotIndex - (sepIndex + 1))) p (sepIndex + 1)
  then (slice p 0 dotIndex, slice_from p dotIndex)
  else (p, "").

(** [range(0, stop, step)] for a positive step: CPython computes the
    number of items as [(stop + step - 1) // step]. *)
Definition range_step (stop step : nat) : list nat :=
  (λ k, k * step) <$> seq 0 ((stop + step - 1) / step).

(** The list slice [l[i:j]], which Python clamps to the list. *)
Definition list_slice {A} (l : list A) (i j : nat) : list A :=
  take (j - i) (drop i l).

End Py.
Import Py.

(** ** pandas frames *)

Module Pandas.

(** A cell holds text or is missing ([None] / [NaN] / SQL [NULL]).
    Numeric cells are carried as their text: [query_gwas] never
    inspects a cell other than the identifier. *)
Inductive cell :=
| Text (s : string)
| NA.

#[export] Instance cell_eq_dec : EqDecision cell.
Proof. solve_decision. Defined.

(** A frame is its labelled columns, in order.  Labels are taken to be
    distinct, as they are in a table of a DuckDB file or a parquet file
    written by pandas, so a label denotes one column. *)
Definition DataFrame : Type := list (string * list cell).

(** [pd.DataFrame(columns=labels)] *)
Definition empty_frame (labels : list string) : DataFrame :=
  (λ c, (c, [])) <$> labels.

(** [df.columns] *)
Definition columns (df : DataFrame) : list string := df.*1.

(** [len(df)] *)
Definition nrows (df : DataFrame) : nat :=
  match df with
  | [] => 0
  | (_, xs) :: _ => length xs
  end.

(** The column stored under a label, if any. *)
Fixpoint find_column (df : DataFrame) (label : string)
  : option (string * list cell) :=
  match df with
  | [] => None
  | (c, xs) :: df' =>
      if String.eqb c label then Some (c, xs) else find_column df' label
  end.

(** [df[label]] *)
Definition getitem (df : DataFrame) (label : string) : result (list cell) :=
  match find_column df label with
  | Some (_, xs) => Return xs
  | None => Raise (KeyError label)
  end.

(** [series.isin(values)] *)
Definition isin (series : list cell) (values : gset string) : list bool :=
  (λ x, match x with
        | Text s => bool_decide (s ∈ values)
        | NA => false
        end) <$> series.

(** Keep the positions the mask marks. *)
Fixpoint keep {A} (mask : list bool) (xs : list A) : list A :=
  match mask, xs with
  | b :: mask', x :: xs' => if b then x :: keep mask' xs' else keep mask' xs'
  | _, _ => []
  end.

(** [df[mask]] *)
Definition boolean_index (df : DataFrame) (mask : list bool) : DataFrame :=
  (λ col, (col.1, keep mask col.2)) <$> df.

(** [df[labels]] with a list of labels *)
Fixpoint select (df : DataFrame) (labels : list string) : result DataFrame :=
  match labels with
  | [] => Return []
  | c :: labels' =>
      match find_column df c with
      | None => Raise (KeyError c)
      | Some col => rest ← select df labels'; Return (col :: rest)
      end
  end.

End Pandas.
Import Pandas.

(** ** The DuckDB connection *)

Module DuckDB.

(** The statements [query_gwas] sends.  [InsertValues] carries the text
    after [VALUES], which the function builds by string formatting. *)
Inductive statement :=
| ShowTables
| CreateTempTable
| InsertValues (values : string)
| SelectJoin (table : string).

(** A connection: the tables of the file in the order [SHOW TABLES]
    lists them, the temporary table [filter_rsid] when it exists,
    whether the connection is open, and the statements sent so far.
    The names of a catalog differ in more than letter case, so a listed
    name denotes one table. *)
Record connection := Connection {
  catalog : list (string * DataFrame);
  filter_rsid : option (list string);
  is_open : bool;
  executed : list statement
}.

(** Calls on a connection: they return or raise, and change it. *)
Definition DB (A : Type) : Type := connection → result A * connection.

#[export] Instance DB_ret : MRet DB := λ A a con, (Return a, con).
#[export] Instance DB_bind : MBind DB := λ A B f m con,
  match m con with
  | (Return a, con') => f a con'
  | (Raise e, con') => (Raise e, con')
  end.

Definition throw {A} (e : exn) : DB A := λ con, (Raise e, con).

(** The errors of the engine's catalog. *)
Definition catalog_error (what : string) : exn :=
  LibraryError ("Catalog Error: Table with name " +:+ what).

(** A statement reaches the engine. *)
Definition sent (s : statement) (con : connection) : connection :=
  Connection (catalog con) (filter_rsid con) (is_open con) (executed con ++ [s]).

(** How the engine reads the text after [VALUES]: one-column tuples of
    string literals, [('a'),('b')], where a doubled quote inside a
    literal stands for one quote.  Any other text is a parser error
    here (the engine accepts more, e.g. blanks between tokens). *)
Inductive lexer :=
| AtTuple
| AtLiteral
| InLiteral (lit : string)
| AfterQuote (lit : string)
| AfterTuple.

Fixpoint read_values (st : lexer) (vals : list string) (text : string)
  : option (list string) :=
  match text with
  | EmptyString =>
      match st with
      | AfterTuple => Some vals
      | _ => None
      end
  | String c text' =>
      match st with
      | AtTuple =>
          if Ascii.eqb c "(" then read_values AtLiteral vals text' else None
      | AtLiteral =>
          if Ascii.eqb c "'" then read_values (InLiteral "") vals text' else None
      | InLiteral lit =>
          if Ascii.eqb c "'" then read_values (AfterQuote lit) vals text'
          else read_values (InLiteral (lit +:+ String c "")) vals text'
      | AfterQuote lit =>
          if Ascii.eqb c "'" then read_values (InLiteral (lit +:+ "'")) vals text'
          else if Ascii.eqb c ")" then read_values AfterTuple (vals ++ [lit]) text'
          else None
      | AfterTuple =>
          if Ascii.eqb c "," then read_values AtTuple vals text' else None
      end
  end.

Definition parse_values (text : string) : option (list string) :=
  read_values AtTuple [] text.

(** [duckdb.connect(path, read_only=True)] on the tables of a file *)
Definition connect (tables : list (string * DataFrame)) : connection :=
  Connection tables None true [].

(** [con.execute("SHOW TABLES").fetchall()], first field of each row *)
Definition show_tables : DB (list string) := λ con,
  (Return (catalog con).*1, sent ShowTables con).

(** [con.execute("CREATE TEMP TABLE filter_rsid (rsid VARCHAR)")] *)
Definition create_temp_table : DB () := λ con,
  let con := sent CreateTempTable con in
  match filter_rsid con with
  | Some _ => (Raise (catalog_error "filter_rsid already exists!"), con)
  | None => (Return (), Connection (catalog con) (Some []) (is_open con) (executed con))
  end.

(** [con.execute("INSERT INTO filter_rsid VALUES " + values)] *)
Definition insert_values (values : string) : DB () := λ con,
  let con := sent (InsertValues values) con in
  match parse_values values, filter_rsid con with
  | None, _ => (Raise (LibraryError "Parser Error: syntax error in VALUES list"), con)
  | Some _, None => (Raise (catalog_error "filter_rsid does not exist!"), con)
  | Some rows, Some old =>
      (Return (), Connection (catalog con) (Some (old ++ rows)) (is_open con) (executed con))
  end.

(** How the engine reads the table name that line 78 pastes, without
    quotes, into the text of the join.  The name is one identifier when it
    is a word: a letter, an underscore or a byte above 127, followed by
    letters, digits, underscores and dollar signs.  A word that the
    grammar reserves (compared without regard to letter case) cannot stand
    for a table.  Every other text is taken to fail to parse. *)
Definition ident_start (c : ascii) : bool :=
  let n := nat_of_ascii c in
  ((65 <=? n) && (n <=? 90)) || ((97 <=? n) && (n <=? 122))
  || (n =? 95) || (128 <=? n).

Definition ident_cont (c : ascii) : bool :=
  let n := nat_of_ascii c in
  ident_start c || ((48 <=? n) && (n <=? 57)) || (n =? 36).

Fixpoint all_chars (f : ascii → bool) (s : string) : bool :=
  match s with
  | EmptyString => true
  | String c s' => f c && all_chars f s'
  end.

Definition bare_identifier (name : string) : bool :=
  match name with
  | EmptyString => false
  | String c rest => ident_start c && all_chars ident_cont rest
  end.

(** The reserved words of the grammar and the words it keeps for join
    types, operators and type constructors (the list differs a little
    between releases of the engine). *)
Definition reserved_words : list string :=
  [ "all"; "analyse"; "analyze"; "and"; "any"; "array"; "as"; "asc";
    "asymmetric"; "both"; "case"; "cast"; "check"; "collate"; "column";
    "constraint"; "create"; "default"; "deferrable"; "desc"; "describe";
    "distinct"; "do"; "else"; "end"; "except"; "false"; "fetch"; "for";
    "foreign"; "from"; "grant"; "group"; "having"; "in"; "initially";
    "intersect"; "into"; "lambda"; "lateral"; "leading"; "limit"; "not";
    "null"; "offset"; "on"; "only"; "or"; "order"; "pivot"; "pivot_longer";
    "pivot_wider"; "placing"; "primary"; "qualify"; "references";
    "returning"; "select"; "show"; "some"; "summarize"; "symmetric";
    "table"; "then"; "to"; "trailing"; "true"; "union"; "unique";
    "unpivot"; "using"; "variadic"; "when"; "where"; "window"; "with";
    "anti"; "asof"; "authorization"; "binary"; "collation"; "concurrently";
    "cross"; "freeze"; "full"; "generated"; "glob"; "ilike"; "inner"; "is";
    "isnull"; "join"; "left"; "like"; "map"; "natural"; "notnull"; "outer";
    "overlaps"; "positional"; "right"; "semi"; "similar"; "struct";
    "tablesample"; "try_cast"; "verbose" ].

Definition unquoted (name : string) : bool :=
  bare_identifier name && negb (bool_decide (lower name ∈ reserved_words)).

Definition parser_error (name : string) : exn :=
  LibraryError ("Parser Error: syntax error at or near " +:+ name).

(** The table an unquoted name stands for.  The temporary schema is
    searched before the schema of the file and names are compared without
    regard to letter case, so a table of the file that is called
    [filter_rsid] is hidden by the temporary table of line 69, whose one
    column holds the inserted identifiers. *)
Definition resolve (table : string) (con : connection) : option DataFrame :=
  if String.eqb (lower table) "filter_rsid" then
    match filter_rsid con with
    | Some ids => Some [("rsid", Text <$> ids)]
    | None => None
    end
  else
    match list_find (λ t, t.1 = table) (catalog con) with
    | Some (_, (_, a)) => Some a
    | None => None
    end.

(** The column [a.rsid]: the engine finds a column without regard to
    letter case.  No table of the engine has two columns that differ in
    letter case only; in a frame that has, the label [rsid] itself is
    taken. *)
Definition join_column (a : DataFrame) : option (list cell) :=
  match find_column a "rsid" with
  | Some (_, xs) => Some xs
  | None =>
      match list_find (λ col, lower col.1 = "rsid") a with
      | Some (_, (_, xs)) => Some xs
      | None => None
      end
  end.

(** One output row per pair of a table row and a temporary-table row
    with equal [rsid]: each cell of a table row is repeated once per
    matching identifier.  [NULL] equals nothing.  The engine promises
    no row order; the rows are listed here in the order of a nested loop,
    which is one of the orders it may give. *)
Definition matches (ids : list string) (x : cell) : nat :=
  match x with
  | Text s => length (filter (λ r, r = s) ids)
  | NA => 0
  end.

Definition repeat_rows {A} (hits : list nat) (xs : list A) : list A :=
  mjoin (zip_with replicate hits xs).

Definition inner_join (a : DataFrame) (ids : list string) : option DataFrame :=
  match join_column a with
  | None => None
  | Some rsid =>
      Some ((λ col, (col.1, repeat_rows (matches ids <$> rsid) col.2)) <$> a)
  end.

Definition binder_error : exn :=
  LibraryError "Binder Error: Table a does not have a column named rsid".

(** [con.execute("SELECT a.* FROM table a INNER JOIN filter_rsid f
    ON a.rsid = f.rsid").df()] *)
Definition select_join (table : string) : DB DataFrame := λ con,
  let con := sent (SelectJoin table) con in
  if negb (unquoted table) then (Raise (parser_error table), con)
  else
  match resolve table con, filter_rsid con with
  | None, _ => (Raise (catalog_error (table +:+ " does not exist!")), con)
  | Some _, None => (Raise (catalog_error "filter_rsid does not exist!"), con)
  | Some a, Some ids =>
      match inner_join a ids with
      | None => (Raise binder_error, con)
      | Some df => (Return df, con)
      end
  end.

(** [con.close()]: the connection and its temporary objects go. *)
Definition close : DB () := λ con,
  (Return (), Connection (catalog con) None false (executed con)).

End DuckDB.
Import DuckDB.

(** ** The module under verification *)

Definition REQUIRED_COLUMNS : list string :=
  [ "rsid"; "risk_allele"; "pvalue"; "beta"; "trait"; "trait_uri"; "study_id";
    "mapped_gene"; "upstream_gene_id"; "downstream_gene_id"; "snp_gene_ids";
    "chr"; "chr_pos"; "context"; "is_intergenic"; "risk_allele_freq"; "ci_95_text" ].

(** What a path of the file system holds: a parquet table, a DuckDB
    database (its tables, in listing order), or something else. *)
Inductive file :=
| ParquetFile (table : DataFrame)
| DuckDBFile (tables : list (string * DataFrame))
| OtherFile.

(** [os.path.exists(path)] *)
Definition path_exists (fs : gmap string file) (path : string) : bool :=
  bool_decide (is_Some (fs !! path)).

(** [pd.read_parquet(path, engine='pyarrow')] *)
Definition read_parquet (fs : gmap string file) (path : string) : result DataFrame :=
  match fs !! path with
  | Some (ParquetFile table) => Return table
  | Some _ => Raise (LibraryError "Parquet magic bytes not found in footer")
  | None => Raise (LibraryError ("No such file or directory: " +:+ path))
  end.

(** [duckdb.connect(path, read_only=True)] *)
Definition duckdb_connect (fs : gmap string file) (path : string) : result connection :=
  match fs !! path with
  | Some (DuckDBFile tables) => Return (connect tables)
  | Some _ =>
      Raise (LibraryError ("IO Error: The file " +:+ path
                           +:+ " exists, but it is not a valid DuckDB database file!"))
  | None => Raise (LibraryError ("IO Error: Cannot open database " +:+ path))
  end.

(** Line 71 *)
Definition chunk_size : N := 50000.

(** Lines 74-76: the text after [VALUES], one quoted tuple per identifier. *)
Definition values_text (chunk : list string) : string :=
  String.concat "," ((λ r, "('" +:+ r +:+ "')") <$> chunk).

(** Lines 72-76: the loop that fills the temporary table, over the
    start indices [range(0, len(rsid_list), chunk_size)]. *)
Fixpoint insert_chunks (rsid_list : list string) (chunk_size : nat)
    (starts : list nat) : DB () :=
  match starts with
  | [] => mret ()
  | i :: starts' =>
      let chunk := list_slice rsid_list i (i + chunk_size) in
      insert_values (values_text chunk) ;;
      insert_chunks rsid_list chunk_size starts'
  end.

(** Lines 60-82: the body of the [.duckdb] branch after [connect]. *)
Definition duckdb_load (rsid_list : list string) : DB DataFrame :=
  tables ← show_tables;
  table ← (if bool_decide ("associations_clean" ∈ tables) then mret "associations_clean"
           else match tables with
                | first :: _ => mret first
                | [] => throw (GWASQueryError "No tables found in DuckDB file.")
                end);
  create_temp_table ;;
  insert_chunks rsid_list (N.to_nat chunk_size)
    (range_step (length rsid_list) (N.to_nat chunk_size)) ;;
  df ← select_join table;
  close ;;
  mret df.

(** What a call leaves behind: its result, and the DuckDB connection it
    created, if it created one, as it is when control returns. *)
Record outcome := Outcome {
  result_of : result DataFrame;
  connection_of : option connection
}.

(** [query_gwas], lines 21-101.  The file system is the first argument.
    The row index of a frame is not modelled, so the final
    [reset_index(drop=True)] leaves the frame as it is. *)
Definition query_gwas (fs : gmap string file) (gwas_path : string)
    (rsid_list : list string) : outcome :=
  if negb (path_exists fs gwas_path) then
    Outcome (Raise (GWASQueryError ("File does not exist: " +:+ gwas_path))) None
  else
  let ext := lower (splitext gwas_path).2 in
  if negb (bool_decide (ext ∈ ({[ ".parquet"; ".duckdb" ]} : gset string))) then
    Outcome (Raise (GWASQueryError ("Unsupported file type: " +:+ ext
                      +:+ ". Only .parquet and .duckdb are supported."))) None
  else
  match rsid_list with
  | [] => Outcome (Return (empty_frame REQUIRED_COLUMNS)) None
  | _ :: _ =>
      let loaded : result DataFrame * option connection :=
        if String.eqb ext ".parquet" then (read_parquet fs gwas_path, None)
        else if String.eqb ext ".duckdb" then
          match duckdb_connect fs gwas_path with
          | Raise e => (Raise e, None)
          | Return con =>
              let (r, con') := duckdb_load rsid_list con in (r, Some con')
          end
        else (Raise (GWASQueryError ("Unsupported file type: " +:+ ext)), None) in
      match loaded with
      | (Raise e, con) =>
          Outcome (Raise (GWASQueryError ("Failed to load GWAS file: " +:+ str e))) con
      | (Return df, con) =>
          let missing := filter (λ col, col ∉ columns df) REQUIRED_COLUMNS in
          match missing with
          | _ :: _ =>
              Outcome (Raise (GWASQueryError ("Missing required columns: "
                                +:+ String.concat ", " missing))) con
          | [] =>
              let filtered :=
                if String.eqb ext ".parquet" then
                  rsid ← getitem df "rsid";
                  let rsid_set : gset string := list_to_set rsid_list in
                  mret (boolean_index df (isin rsid rsid_set))
                else mret df in
              Outcome (df ← filtered; select df REQUIRED_COLUMNS) con
          end
      end
  end.

(** ** Vocabulary of the statements *)

(** The required columns a frame lacks, in schema order (line 89). *)
Definition missing_columns (df : DataFrame) : list string :=
  filter (λ col, col ∉ columns df) REQUIRED_COLUMNS.

(** The identifier column of a frame, empty when there is none. *)
Definition rsid_of (df : DataFrame) : list cell :=
  match find_column df "rsid" with
  | Some (_, xs) => xs
  | None => []
  end.

(** How many rows of a column carry the identifier [r]. *)
Definition occurrences (r : string) (xs : list cell) : nat :=
  length (filter (λ x, x = Text r) xs).

(** An identifier without a single quote: the text the insert statement
    builds for it is the literal of that identifier. *)
Fixpoint plain (r : string) : bool :=
  match r with
  | EmptyString => true
  | String c r' => negb (Ascii.eqb c "'") && plain r'
  end.

(** The slices the insert loop takes, in order. *)
Definition chunks_by (step : nat) (rsid_list : list string) : list (list string) :=
  (λ i, list_slice rsid_list i (i + step)) <$> range_step (length rsid_list) step.

Definition chunks (rsid_list : list string) : list (list string) :=
  chunks_by (N.to_nat chunk_size) rsid_list.

(** The table of a database that the [.duckdb] branch reads. *)
Definition queried_table (tables : list (string * DataFrame))
  : option (string * DataFrame) :=
  if bool_decide ("associations_clean" ∈ tables.*1)
  then snd <$> list_find (λ t, t.1 = "associations_clean") tables
  else head tables.

(** A frame whose columns all went through the same row operation. *)
Definition on_rows (f : list cell → list cell) (df : DataFrame) : DataFrame :=
  (λ col, (col.1, f col.2)) <$> df.

(** The statements of a complete run of the [.duckdb] branch that reads
    [table]: the listing, the temporary table, one insert per chunk, the
    join. *)
Definition full_log (table : string) (rsid_list : list string) : list statement :=
  [ShowTables; CreateTempTable]
  ++ ((λ b, InsertValues (values_text b)) <$> chunks rsid_list)
  ++ [SelectJoin table].

(** Is the result the unsupported-format failure of line 46? *)
Definition unsupported_format (r : result DataFrame) : bool :=
  match r with
  | Raise (GWASQueryError msg) => String.prefix "Unsupported file type: " msg
  | _ => false
  end.

(** Is the result the load failure of line 86? *)
Definition load_failure (r : result DataFrame) : bool :=
  match r with
  | Raise (GWASQueryError msg) => String.prefix "Failed to load GWAS file: " msg
  | _ => false
  end.

(** The texts of the insert statements in a log, in the order sent. *)
Definition inserts (log : list statement) : list string :=
  omap (λ s, match s with
             | InsertValues text => Some text
             | _ => None
             end) log.

(** The rows of a frame, and two frames that hold the same rows under
    the same labels, in whatever order. *)
Definition row (df : DataFrame) (i : nat) : list (option cell) :=
  (λ col, col.2 !! i) <$> df.

Definition rows (df : DataFrame) : list (list (option cell)) :=
  row df <$> seq 0 (nrows df).



(** Does the text of an exception start like the message of line 66? *)
Definition no_tables_text (e : exn) : bool :=
  String.prefix "No tables found" (str e).

(** The extensions line 45 accepts. *)
Definition recognized : gset string := {[ ".parquet"; ".duckdb" ]}.

(** The extension the function dispatches on. *)
Definition extension (path : string) : string := lower (splitext path).2.

(** ** Fixtures, after [tests/test_query_gwas.py] *)

(** [make_gwas_df]: every required column, with the given identifiers;
    the other cells are place holders. *)
Definition make_gwas_df (rsids : list string) : DataFrame :=
  (λ col, (col,
     if String.eqb col "rsid" then Text <$> rsids
     else if String.eqb col "pvalue" then replicate (length rsids) (Text "0.05")
     else if String.eqb col "beta" then replicate (length rsids) (Text "0.1")
     else replicate (length rsids) (Text ("val_" +:+ col))))
  <$> REQUIRED_COLUMNS.

(** [df.drop(columns=[label])] *)
Definition drop_column (label : string) (df : DataFrame) : DataFrame :=
  filter (λ col, col.1 ≠ label) df.

(** The same rows under reversed column order and one more column. *)
Definition reordered_with_extra (df : DataFrame) : DataFrame :=
  ("notes", replicate (nrows df) (Text "n/a")) :: reverse df.

(** One association table, stored once as a parquet file and once as the
    table [associations_clean] of a database, next to a database without
    tables and a text file. *)
Definition sample_fs (table : DataFrame) : gmap string file :=
  {[ "gwas.parquet" := ParquetFile table;
     "gwas.duckdb" := DuckDBFile [("associations_clean", table)];
     "empty.duckdb" := DuckDBFile [];
     "gwas.txt" := OtherFile ]}.

(** ** The genotype loader, [risk-scoring/scripts/load_user_genotype.py] *)

Module Genotype.

(** What a call gives back: a frame, or the one exception the function
    lets out (lines 24 and 29 raise it, line 46 wraps every other). *)
Inductive loaded :=
| Loaded (df : DataFrame)
| GenotypeFileError (msg : string).

(** [os.path.isfile(path)] on a file system of text files *)
Definition isfile (fs : gmap string string) (path : string) : bool :=
  bool_decide (is_Some (fs !! path)).

(** [df.columns = labels], for as many labels as columns *)
Definition set_columns (df : DataFrame) (labels : list string) : DataFrame :=
  zip labels df.*2.

(** [series.astype(str)] on a column read with [dtype=str]: text stays
    text.  What a missing cell becomes depends on the release of pandas:
    the text [nan] in the 2.x line, where such a column holds objects,
    and still a missing cell in the 3.x line, where it holds strings.
    [na] is that cell. *)
Definition astype_str (na : cell) (x : cell) : cell :=
  match x with
  | Text s => Text s
  | NA => na
  end.

(** [a + b] on two cells: the two texts joined, missing when one is. *)
Definition add (x y : cell) : cell :=
  match x, y with
  | Text s, Text t => Text (s +:+ t)
  | _, _ => NA
  end.

(** [a + b] on two columns *)
Definition series_add (a b : list cell) : list cell := zip_with add a b.

(** Does a label denote one column?  When it occurs more than once,
    [df[label]] is a frame, not a column. *)
Definition once (label : string) (labels : list string) : bool :=
  length (filter (λ c, c = label) labels) =? 1.

(** [df[label] = values]: the column of that label is replaced, or a new
    last column is added. *)
Definition setitem (df : DataFrame) (label : string) (values : list cell)
  : DataFrame :=
  if bool_decide (label ∈ columns df)
  then (λ col, if String.eqb col.1 label then (label, values) else col) <$> df
  else df ++ [(label, values)].

Definition tab : string := String (ascii_of_nat 9) "".

(** Lines 35-41, the body of the inner [try] for one separator.
    [read_csv content sep] stands for
    [pd.read_csv(filepath, sep=sep, comment='#', dtype=str)] on a file of
    that content.  When the label [allele1] or [allele2] occurs more than
    once after lower-casing, the sum of line 40 is taken over frames and
    its assignment to the one column [genotype] raises. *)
Definition read_with (read_csv : string → string → result DataFrame) (na : cell)
    (content sep : string) : result DataFrame :=
  temp_df ← read_csv content sep;
  let columns := lower <$> columns temp_df in
  let temp_df := set_columns temp_df columns in
  if bool_decide ("rsid" ∈ columns) && bool_decide ("allele1" ∈ columns)
     && bool_decide ("allele2" ∈ columns)
  then
    if once "allele1" columns && once "allele2" columns then
      allele1 ← getitem temp_df "allele1";
      allele2 ← getitem temp_df "allele2";
      mret (setitem temp_df "genotype"
              (series_add (astype_str na <$> allele1) (astype_str na <$> allele2)))
    else
      Raise (LibraryError
               "ValueError: Cannot set a DataFrame with multiple columns to the single column genotype")
  else mret temp_df.

(** Lines 33-43: the first separator whose body does not raise. *)
Fixpoint try_separators (read_csv : string → string → result DataFrame) (na : cell)
    (content : string) (seps : list string) : option DataFrame :=
  match seps with
  | [] => None
  | sep :: seps' =>
      match read_with read_csv na content sep with
      | Return temp_df => Some temp_df
      | Raise _ => try_separators read_csv na content seps'
      end
  end.

(** [load_user_genotype], lines 9-46, for a reader [read_csv] and the
    cell [na] that [astype(str)] makes of a missing cell.  Every path
    through the [try] of lines 32-46 returns or raises, so lines 48-57 are
    never reached. *)
Definition load_user_genotype (read_csv : string → string → result DataFrame)
    (na : cell) (fs : gmap string string) (filepath : string) : loaded :=
  match fs !! filepath with
  | None => GenotypeFileError ("File not found: " +:+ filepath)
  | Some content =>
      let ext := lower (splitext filepath).2 in
      if negb (bool_decide (ext ∈ [".txt"; ".csv"])) then
        GenotypeFileError ("Unsupported file type: " +:+ ext
                           +:+ ". Only .txt and .csv are supported.")
      else
        match try_separators read_csv na content [tab; ","; " "] with
        | Some temp_df => Loaded temp_df
        | None =>
            GenotypeFileError
              ("Error reading file: "
               +:+ "Could not parse file with expected delimiters.")
        end
  end.

Definition nl : string := String (ascii_of_nat 10) "".

(** Three file contents: the files of [test_valid_tsv_allele12] and
    [test_malformed_file], and a file with capitals in its header and an
    empty last field. *)
Definition tsv_allele12 : string :=
  "rsid" +:+ tab +:+ "chromosome" +:+ tab +:+ "position" +:+ tab
  +:+ "allele1" +:+ tab +:+ "allele2" +:+ nl
  +:+ "rs190214723" +:+ tab +:+ "1" +:+ tab +:+ "693625" +:+ tab
  +:+ "T" +:+ tab +:+ "T" +:+ nl.

Definition piped : string := "rsid|genotype" +:+ nl +:+ "rs1|AA" +:+ nl.

Definition capitals : string :=
  "RSID" +:+ tab +:+ "Allele1" +:+ tab +:+ "Allele2" +:+ nl
  +:+ "rs1" +:+ tab +:+ "A" +:+ tab +:+ nl.

(** A reader for the worked cases.  It parses nothing: it knows the
    frames pandas reads from these three contents under the tab separator
    and fails on every other input. *)
Definition sample_reader (content sep : string) : result DataFrame :=
  if negb (String.eqb sep tab) then Raise (LibraryError "ParserError")
  else if String.eqb content tsv_allele12 then
    Return [("rsid", [Text "rs190214723"]); ("chromosome", [Text "1"]);
            ("position", [Text "693625"]); ("allele1", [Text "T"]);
            ("allele2", [Text "T"])]
  else if String.eqb content piped then
    Return [("rsid|genotype", [Text "rs1|AA"])]
  else if String.eqb content capitals then
    Return [("RSID", [Text "rs1"]); ("Allele1", [Text "A"]); ("Allele2", [NA])]
  else Raise (LibraryError "No columns to parse from file").

Definition sample_files : gmap string string :=
  {[ "alleles.txt" := tsv_allele12; "piped.csv" := piped;
     "capitals.TXT" := capitals; "empty.csv" := ""; "sheet.xlsx" := piped ]}.

End Genotype.

(** ** The ontology loader, [gwas/scripts/load_efo_owl_to_duckdb.py] *)

Module Efo.

(** The terms of an rdflib graph.  A literal carries the truth value
    rdflib gives it ([bool(literal)], which depends on its datatype). *)
Inductive node :=
| URIRef (iri : string)
| BNode (id : string)
| Literal (lexical : string) (truth : bool).

#[export] Instance node_eq_dec : EqDecision node.
Proof. solve_decision. Defined.

#[export] Instance node_countable : Countable node :=
  inj_countable'
    (λ n, match n with
          | URIRef s => inl (inl s)
          | BNode s => inl (inr s)
          | Literal s b => inr (s, b)
          end)
    (λ x, match x with
          | inl (inl s) => URIRef s
          | inl (inr s) => BNode s
          | inr (s, b) => Literal s b
          end)
    (λ n, match n with
          | URIRef _ | BNode _ | Literal _ _ => eq_refl
          end).

(** [str(n)] *)
Definition str (n : node) : string :=
  match n with
  | URIRef s => s
  | BNode s => s
  | Literal s _ => s
  end.

(** [isinstance(n, rdflib.term.BNode)] *)
Definition is_BNode (n : node) : bool :=
  match n with
  | BNode _ => true
  | _ => false
  end.

(** [bool(n)]: a reference is a string, true unless empty. *)
Definition truthy (n : node) : bool :=
  match n with
  | URIRef s | BNode s => negb (String.eqb s "")
  | Literal _ b => b
  end.

Definition RDF_type : node := URIRef "http://www.w3.org/1999/02/22-rdf-syntax-ns#type".
Definition OWL_Class : node := URIRef "http://www.w3.org/2002/07/owl#Class".
Definition RDFS_label : node := URIRef "http://www.w3.org/2000/01/rdf-schema#label".
Definition RDFS_subClassOf : node :=
  URIRef "http://www.w3.org/2000/01/rdf-schema#subClassOf".
Definition hasDefinition : node :=
  URIRef "http://www.geneontology.org/formats/oboInOwl#hasDefinition".
Definition hasExactSynonym : node :=
  URIRef "http://www.geneontology.org/formats/oboInOwl#hasExactSynonym".

(** A graph is a set of triples; it is walked in the order of its
    elements. *)
Abbreviation graph := (gset (node * node * node)).

(** [g.subjects(p, o)] *)
Definition subjects (g : graph) (p o : node) : list node :=
  (λ t, t.1.1) <$> filter (λ t, t.1.2 = p ∧ t.2 = o) (elements g).

(** [g.objects(s, p)] *)
Definition objects (g : graph) (s p : node) : list node :=
  (λ t, t.2) <$> filter (λ t, t.1.1 = s ∧ t.1.2 = p) (elements g).

(** [g.value(s, p)]: one of the objects, or [None]. *)
Definition value (g : graph) (s p : node) : option node :=
  head (objects g s p).

(** The rows the parser builds (the dictionaries of lines 34-45). *)
Record term := Term {
  uri : string;
  label : option string;
  definition : option string
}.

Record synonym_row := Synonym {
  synonym_uri : string;
  synonym : string
}.

Record relationship := Relationship {
  subject : string;
  predicate : string;
  object : string
}.

(** [str(v) if v else None] *)
Definition text_or_None (v : option node) : option string :=
  match v with
  | Some n => if truthy n then Some (str n) else None
  | None => None
  end.

(** Lines 31-38: the term of a subject. *)
Definition term_of (g : graph) (s : node) : term :=
  Term (str s) (text_or_None (value g s RDFS_label))
       (text_or_None (value g s hasDefinition)).

(** Lines 40-41: its synonyms. *)
Definition synonyms_of (g : graph) (s : node) : list synonym_row :=
  (λ syn, Synonym (str s) (str syn)) <$> objects g s hasExactSynonym.

(** Lines 43-45: its links to named superclasses. *)
Definition relationships_of (g : graph) (s : node) : list relationship :=
  (λ o, Relationship (str s) "subClassOf" (str o))
  <$> filter (λ o, is_BNode o = false) (objects g s RDFS_subClassOf).

(** Lines 29-45: the body of the loop for one subject. *)
Definition visit (g : graph)
    (acc : list term * list synonym_row * list relationship) (s : node)
  : list term * list synonym_row * list relationship :=
  if is_BNode s then acc
  else (acc.1.1 ++ [term_of g s],
        acc.1.2 ++ synonyms_of g s,
        acc.2 ++ relationships_of g s).

(** [parse_efo_owl], lines 16-47, on the graph rdflib has parsed from the
    file. *)
Definition parse_efo_owl (g : graph)
  : list term * list synonym_row * list relationship :=
  foldl (visit g) ([], [], []) (subjects g RDF_type OWL_Class).

(** The three tables of the database, each absent until created.
    [efo_term] has [uri] as its primary key. *)
Record database := Database {
  efo_term : option (gmap string (option string * option string));
  efo_synonym : option (list synonym_row);
  efo_relationship : option (list relationship)
}.

Inductive exn :=
| FileNotFoundError (msg : string)
| ParserError (msg : string)
| CatalogException (msg : string)
| InvalidInputException (msg : string).

(** A run ends normally or with an exception; either way the database
    is left in some state. *)
Inductive run :=
| Done (db : database)
| Raised (e : exn) (db : database).

(** [create_schema], lines 49-71: three times [CREATE TABLE IF NOT EXISTS]. *)
Definition create_schema (db : database) : database :=
  Database (Some (default ∅ (efo_term db)))
           (Some (default [] (efo_synonym db)))
           (Some (default [] (efo_relationship db))).

Definition no_parameters : exn :=
  InvalidInputException
    "executemany requires a non-empty list of parameter sets to be provided".

Definition no_table (name : string) : exn :=
  CatalogException ("Table with name " +:+ name +:+ " does not exist!").

(** [INSERT OR REPLACE], row after row: a row replaces the row of the
    same [uri]. *)
Definition upsert (table : gmap string (option string * option string))
    (rows : list term) : gmap string (option string * option string) :=
  foldl (λ m t, <[uri t := (label t, definition t)]> m) table rows.

(** [con.executemany("INSERT OR REPLACE INTO efo_term ...", rows)]: the
    engine refuses an empty list of rows. *)
Definition insert_or_replace_terms (rows : list term) (db : database) : run :=
  match rows, efo_term db with
  | [], _ => Raised no_parameters db
  | _, None => Raised (no_table "efo_term") db
  | _, Some table =>
      Done (Database (Some (upsert table rows))
              (efo_synonym db) (efo_relationship db))
  end.

(** [con.executemany("INSERT INTO efo_synonym ...", rows)] *)
Definition insert_synonyms (rows : list synonym_row) (db : database) : run :=
  match rows, efo_synonym db with
  | [], _ => Raised no_parameters db
  | _, None => Raised (no_table "efo_synonym") db
  | _, Some table =>
      Done (Database (efo_term db) (Some (table ++ rows)) (efo_relationship db))
  end.

(** [con.executemany("INSERT INTO efo_relationship ...", rows)] *)
Definition insert_relationships (rows : list relationship) (db : database) : run :=
  match rows, efo_relationship db with
  | [], _ => Raised no_parameters db
  | _, None => Raised (no_table "efo_relationship") db
  | _, Some table =>
      Done (Database (efo_term db) (efo_synonym db) (Some (table ++ rows)))
  end.

Definition and_then (r : run) (f : database → run) : run :=
  match r with
  | Done db => f db
  | Raised e db => Raised e db
  end.

(** [insert_data], lines 73-82 *)
Definition insert_data (db : database) (terms : list term)
    (synonyms : list synonym_row) (relationships : list relationship) : run :=
  and_then (insert_or_replace_terms terms db) (λ db,
  and_then (match synonyms with
            | [] => Done db
            | _ :: _ => insert_synonyms synonyms db
            end) (λ db,
  match relationships with
  | [] => Done db
  | _ :: _ => insert_relationships relationships db
  end)).

(** What [efo.owl] is: absent, unreadable for rdflib, or a graph. *)
Inductive owl_file :=
| Absent
| Malformed (msg : string)
| Parsed (g : graph).

(** [main], lines 84-98, on the file [efo.owl] and the database
    [gwas.duckdb]. *)
Definition main (owl : owl_file) (db : database) : run :=
  match owl with
  | Absent => Raised (FileNotFoundError "efo.owl not found") db
  | Malformed msg => Raised (ParserError msg) db
  | Parsed g =>
      let '(terms, synonyms, relationships) := parse_efo_owl g in
      insert_data (create_schema db) terms synonyms relationships
  end.

(** The subjects the loop turns into terms. *)
Definition named_classes (g : graph) : list node :=
  filter (λ s, is_BNode s = false) (subjects g RDF_type OWL_Class).

Definition empty_database : database := Database None None None.

(** A small ontology: two named classes, one of them below the other
    and below an anonymous restriction. *)
Definition sample_graph : graph :=
  {[ (URIRef "EFO_1", RDF_type, OWL_Class);
     (URIRef "EFO_1", RDFS_label, Literal "disease" true);
     (URIRef "EFO_2", RDF_type, OWL_Class);
     (URIRef "EFO_2", RDFS_label, Literal "asthma" true);
     (URIRef "EFO_2", hasExactSynonym, Literal "bronchial asthma" true);
     (URIRef "EFO_2", RDFS_subClassOf, URIRef "EFO_1");
     (URIRef "EFO_2", RDFS_subClassOf, BNode "b1");
     (BNode "b1", RDF_type, OWL_Class) ]}.

End Efo.

(** ** The gnomAD download, [gwas/scripts/vcf_download.py] *)

Module Vcf.

Definition BASE_URL : string :=
  "https://storage.googleapis.com/gcp-public-data--gnomad/release/3.1.2/vcf/genomes".

(** [list(range(1, 23))] *)
Definition CHROMOSOMES : list nat := seq 1 22.

Definition EXTENSIONS : list string := ["vcf.bgz"; "vcf.bgz.tbi"].

Inductive level := INFO | ERROR.

(** What a request gets: [requests.get] raises; or the status is an
    error and [raise_for_status] raises; or the body arrives in chunks,
    all of them or, when [iter_content] raises on the way, the first
    ones only.  An exception is known by its text. *)
Inductive response :=
| Unreachable (e : string)
| BadStatus (e : string)
| Body (chunks : list string) (broken : option string).

(** The files, by path, with their content, and the lines logged so far.
    Directories are not part of the model: the destination directory is
    there once line 25 has run. *)
Record world := World {
  files : gmap string string;
  log : list (level * string)
}.

Definition logging (l : level) (msg : string) (w : world) : world :=
  World (files w) (log w ++ [(l, msg)]).

(** Lines 19-21: [open(dest, 'wb')] and one [f.write] for each chunk
    that has arrived. *)
Definition write_chunks (dest : string) (chunks : list string) (w : world) : world :=
  World (<[dest := foldl String.append "" chunks]> (files w)) (log w).

(** [download_file], lines 12-22: the exception raised, if any, and the
    world left behind. *)
Definition download_file (server : string → response) (url dest : string)
    (w : world) : option string * world :=
  if bool_decide (is_Some (files w !! dest)) then
    (None, logging INFO ("File already exists, skipping: " +:+ dest) w)
  else
    let w := logging INFO ("Downloading " +:+ url +:+ " -> " +:+ dest) w in
    match server url with
    | Unreachable e => (Some e, w)
    | BadStatus e => (Some e, w)
    | Body chunks broken =>
        let w := write_chunks dest chunks w in
        match broken with
        | Some e => (Some e, w)
        | None => (None, logging INFO ("Download complete: " +:+ dest) w)
        end
    end.

(** Line 28 *)
Definition fname (chrom : nat) (ext : string) : string :=
  "gnomad.genomes.v3.1.2.sites.chr" +:+ pretty chrom +:+ "." +:+ ext.

(** Line 29 *)
Definition url_of (chrom : nat) (ext : string) : string :=
  BASE_URL +:+ "/" +:+ fname chrom ext.

(** Line 30: [os.path.join(DEST_DIR, fname)] *)
Definition dest_of (DEST_DIR : string) (chrom : nat) (ext : string) : string :=
  DEST_DIR +:+ "/" +:+ fname chrom ext.

(** Lines 28-34: the body of the inner loop. *)
Definition attempt (DEST_DIR : string) (server : string → response)
    (chrom : nat) (ext : string) (w : world) : world :=
  let url := url_of chrom ext in
  match download_file server url (dest_of DEST_DIR chrom ext) w with
  | (None, w) => w
  | (Some e, w) => logging ERROR ("Failed to download " +:+ url +:+ ": " +:+ e) w
  end.

(** [main], lines 24-34, for the directory [DEST_DIR] the script computes
    from its own location. *)
Definition main (DEST_DIR : string) (server : string → response) (w : world) : world :=
  foldl (λ w chrom,
           foldl (λ w ext, attempt DEST_DIR server chrom ext w) w EXTENSIONS)
        w CHROMOSOMES.

(** The pairs the two loops go through, in their order. *)
Definition jobs : list (nat * string) :=
  chrom ← CHROMOSOMES; ext ← EXTENSIONS; [(chrom, ext)].

(** What a download of [url] leaves in its file, if it gets as far as
    opening it. *)
Definition stored (server : string → response) (url : string) : option string :=
  match server url with
  | Body chunks _ => Some (foldl String.append "" chunks)
  | _ => None
  end.

(** The files a run on an empty directory leaves. *)
Definition served_by (DEST_DIR : string) (server : string → response)
    (l : list (nat * string)) : gmap string string :=
  list_to_map
    (omap (λ j, (λ content, (dest_of DEST_DIR j.1 j.2, content))
                <$> stored server (url_of j.1 j.2)) l).

(** A server that has chromosome 1 whole, breaks off the index of
    chromosome 2 after one chunk, and answers 404 to the rest. *)
Definition sample_server (url : string) : response :=
  if String.eqb url (url_of 1 "vcf.bgz") then Body ["##fileformat"; "=VCFv4.2"] None
  else if String.eqb url (url_of 2 "vcf.bgz.tbi") then Body ["TBI"] (Some "Connection broken")
  else BadStatus "404 Client Error: Not Found".

(** A server that has every file. *)
Definition full_server (url : string) : response := Body [url] None.

Definition sample_world : world :=
  World {[ "/data/vcf/gnomad.genomes.v3.1.2.sites.chr3.vcf.bgz" := "old" ]} [].

End Vcf.

(** ** Lists, slices and counting *)

Section Chunks.
Context {A : Type}.
Implicit Types (l : list A) (step : nat).

Lemma list_slice_step l (i step : nat) :
  list_slice l i (i + step) = take step (drop i l).
Proof. unfold list_slice. f_equal. lia. Qed.

Lemma slices_upto l (step k : nat) :
  mjoin ((λ i, take step (drop i l)) <$> ((λ j, j * step) <$> seq 0 k))
  = take (k * step) l.
Proof.
  induction k as [|k IH]; [done|].
  rewrite seq_S, !fmap_app, join_app, IH. simpl.
  rewrite app_nil_r, take_take_drop. f_equal. lia.
Qed.

Lemma range_count_covers (n step : nat) :
  0 < step → n ≤ (n + step - 1) / step * step.
Proof.
  intros Hstep.
  pose proof (Nat.div_mod_eq (n + step - 1) step) as Hdiv.
  pose proof (Nat.mod_upper_bound (n + step - 1) step) as Hmod.
  nia.
Qed.

Lemma range_step_lt (n step i : nat) :
  0 < step → i ∈ range_step n step → i < n.
Proof.
  intros Hstep Hin. unfold range_step in Hin.
  apply list_elem_of_fmap in Hin as (j & -> & Hj).
  apply elem_of_seq in Hj.
  pose proof (Nat.div_mod_eq (n + step - 1) step) as Hdiv.
  nia.
Qed.

End Chunks.

Lemma chunks_by_join (step : nat) (l : list string) :
  0 < step → mjoin (chunks_by step l) = l.
Proof.
  intros Hstep. unfold chunks_by, range_step.
  rewrite (list_fmap_ext _ (λ i, take step (drop i l)))
    by (intros; apply list_slice_step).
  rewrite slices_upto. apply take_ge, range_count_covers, Hstep.
Qed.

Lemma chunks_by_bounds (step : nat) (l : list string) :
  0 < step → Forall (λ b, 0 < length b ≤ step) (chunks_by step l).
Proof.
  intros Hstep. apply Forall_forall. intros b Hb.
  unfold chunks_by in Hb.
  apply list_elem_of_fmap in Hb as (i & -> & Hi).
  apply range_step_lt in Hi; [|done].
  rewrite list_slice_step, length_take, length_drop. lia.
Qed.

Lemma chunks_by_length (step : nat) (l : list string) :
  length (chunks_by step l) = (length l + step - 1) / step.
Proof. unfold chunks_by, range_step. by rewrite !length_fmap, length_seq. Qed.

Lemma chunks_by_full (step : nat) (l : list string) :
  0 < step →
  Forall (λ b, length b = step)
    (take (length (chunks_by step l) - 1) (chunks_by step l)).
Proof.
  intros Hstep. rewrite chunks_by_length. unfold chunks_by, range_step.
  rewrite <- !fmap_take. apply Forall_fmap, Forall_fmap, Forall_forall.
  intros j Hj. apply elem_of_take in Hj as (i & Hi & Hlt).
  apply lookup_seq in Hi as [-> _]. simpl.
  rewrite list_slice_step, length_take, length_drop.
  pose proof (Nat.div_mod_eq (length l + step - 1) step) as Hdiv.
  pose proof (Nat.mod_upper_bound (length l + step - 1) step) as Hmod.
  nia.
Qed.


Lemma chunk_size_pos : 0 < N.to_nat chunk_size.
Proof. unfold chunk_size. lia. Qed.

(** ** The text of an insert statement, as the engine reads it *)

Lemma append_nil_l (t : string) : "" +:+ t = t.
Proof. reflexivity. Qed.

Lemma append_cons (c : ascii) (s t : string) :
  String c s +:+ t = String c (s +:+ t).
Proof. reflexivity. Qed.

Lemma append_empty_r (s : string) : s +:+ "" = s.
Proof. induction s as [|c s IH]; [done|]. by rewrite append_cons, IH. Qed.

Lemma append_assoc (s t u : string) : (s +:+ t) +:+ u = s +:+ (t +:+ u).
Proof. induction s as [|c s IH]; [done|]. by rewrite !append_cons, IH. Qed.

Lemma prefix_append (s t : string) : String.prefix s (s +:+ t) = true.
Proof.
  induction s as [|a s IH]; [by destruct t|].
  rewrite append_cons. simpl. by destruct (ascii_dec a a).
Qed.

Lemma read_literal (r lit rest : string) (vals : list string) :
  plain r = true →
  read_values (InLiteral lit) vals (r +:+ String "'" (String ")" rest))
  = read_values AfterTuple (vals ++ [lit +:+ r]) rest.
Proof.
  revert lit. induction r as [|c r IH]; intros lit Hplain.
  - by rewrite append_nil_l, append_empty_r.
  - simpl in Hplain. apply andb_true_iff in Hplain as [Hc Hr].
    apply negb_true_iff in Hc.
    rewrite append_cons. cbn [read_values]. rewrite Hc, IH by done.
    by rewrite append_assoc, append_cons, append_nil_l.
Qed.

Lemma read_tuple (r rest : string) (vals : list string) :
  plain r = true →
  read_values AtTuple vals (("('" +:+ r +:+ "')") +:+ rest)
  = read_values AfterTuple (vals ++ [r]) rest.
Proof.
  intros Hplain.
  rewrite !append_assoc, !append_cons.
  cbn [read_values]. change (Ascii.eqb "(" "(") with true.
  change (Ascii.eqb "'" "'") with true. cbv iota.
  by rewrite !append_nil_l, (read_literal r "" rest vals Hplain), append_nil_l.
Qed.

Lemma values_text_cons (r r' : string) (chunk : list string) :
  values_text (r :: r' :: chunk)
  = ("('" +:+ r +:+ "')") +:+ String "," (values_text (r' :: chunk)).
Proof. reflexivity. Qed.

Lemma read_tuples (chunk vals : list string) :
  chunk ≠ [] → Forall (λ r, plain r = true) chunk →
  read_values AtTuple vals (values_text chunk) = Some (vals ++ chunk).
Proof.
  revert vals.
  induction chunk as [|r chunk IH]; intros vals Hne Hplain; [done|].
  apply Forall_cons in Hplain as [Hr Hchunk].
  destruct chunk as [|r' chunk].
  - change (values_text [r]) with ("('" +:+ r +:+ "')").
    rewrite <- (append_empty_r ("('" +:+ r +:+ "')")).
    by rewrite (read_tuple r "" vals Hr).
  - rewrite values_text_cons, (read_tuple r _ vals Hr).
    cbn [read_values]. change (Ascii.eqb "," ",") with true. cbv iota.
    rewrite IH by done. by rewrite <- app_assoc.
Qed.

Lemma parse_values_text (chunk : list string) :
  chunk ≠ [] → Forall (λ r, plain r = true) chunk →
  parse_values (values_text chunk) = Some chunk.
Proof. intros. unfold parse_values. by rewrite read_tuples. Qed.

(** ** Frames: labels, selection and masks *)

Lemma find_column_Some (df : DataFrame) (label : string) col :
  find_column df label = Some col → col.1 = label ∧ col ∈ df.
Proof.
  induction df as [|[c xs] df IH]; simpl; [done|].
  destruct (String.eqb_spec c label) as [->|Hne].
  - intros [= <-]. split; [done | left].
  - intros H. destruct (IH H) as [? ?]. split; [done | by right].
Qed.

Lemma find_column_None (df : DataFrame) (label : string) :
  find_column df label = None ↔ label ∉ columns df.
Proof.
  unfold columns. induction df as [|[c xs] df IH]; simpl.
  - split; [intros _; apply not_elem_of_nil | done].
  - destruct (String.eqb_spec c label) as [->|Hne].
    + split; [done | intros []; left].
    + rewrite IH, not_elem_of_cons. simpl.
      split; [intros ?; split; [congruence | done] | by intros [_ ?]].
Qed.

Lemma find_column_is_Some (df : DataFrame) (label : string) :
  label ∈ columns df → ∃ xs, find_column df label = Some (label, xs).
Proof.
  intros Hin. destruct (find_column df label) as [[c xs]|] eqn:Hfind.
  - apply find_column_Some in Hfind as [Hc _]. simpl in Hc. subst. eauto.
  - by apply find_column_None in Hfind.
Qed.

Lemma select_columns (df out : DataFrame) (labels : list string) :
  select df labels = Return out → columns out = labels.
Proof.
  revert out. induction labels as [|c labels IH]; intros out; simpl.
  - by intros [= <-].
  - destruct (find_column df c) as [col|] eqn:Hfind; [|done].
    destruct (select df labels) as [rest|e]; [|done].
    intros [= <-]. apply find_column_Some in Hfind as [Hc _].
    specialize (IH rest eq_refl). unfold columns in *.
    by rewrite fmap_cons, Hc, IH.
Qed.

Lemma select_present (df : DataFrame) (labels : list string) :
  Forall (λ c, c ∈ columns df) labels → ∃ out, select df labels = Return out.
Proof.
  induction 1 as [|c labels Hc _ [rest IH]]; simpl; [eauto|].
  apply find_column_is_Some in Hc as [xs ->]. rewrite IH. simpl. eauto.
Qed.

Lemma missing_columns_nil (df : DataFrame) :
  missing_columns df = [] → Forall (λ c, c ∈ columns df) REQUIRED_COLUMNS.
Proof.
  unfold missing_columns. intros Hnil. apply Forall_forall. intros c Hc.
  destruct (decide (c ∈ columns df)) as [|Hnot]; [done|].
  assert (c ∈ filter (λ col, col ∉ columns df) REQUIRED_COLUMNS) as Hin
    by by apply list_elem_of_filter.
  rewrite Hnil in Hin. by apply elem_of_nil in Hin.
Qed.

Lemma find_column_on_rows f (df : DataFrame) (label : string) :
  find_column (on_rows f df) label
  = (λ col, (col.1, f col.2)) <$> find_column df label.
Proof.
  induction df as [|[c xs] df IH]; simpl; [done|].
  by destruct (String.eqb c label).
Qed.

Lemma columns_on_rows f (df : DataFrame) : columns (on_rows f df) = columns df.
Proof.
  unfold columns, on_rows. rewrite <- list_fmap_compose.
  by apply list_fmap_ext.
Qed.

Lemma rsid_of_on_rows f (df : DataFrame) :
  "rsid" ∈ columns df → rsid_of (on_rows f df) = f (rsid_of df).
Proof.
  intros Hin. unfold rsid_of. rewrite find_column_on_rows.
  by apply find_column_is_Some in Hin as [xs ->].
Qed.

Lemma find_column_select (df out : DataFrame) (c : string) (labels : list string) :
  select df (c :: labels) = Return out → find_column out c = find_column df c.
Proof.
  simpl. destruct (find_column df c) as [[c' xs]|] eqn:Hfind; [|done].
  destruct (select df labels) as [rest|e]; [|done].
  intros [= <-]. apply find_column_Some in Hfind as [Hc _].
  simpl in Hc. subst c'. simpl. by rewrite String.eqb_refl.
Qed.

Lemma rsid_of_select (df out : DataFrame) :
  select df REQUIRED_COLUMNS = Return out → rsid_of out = rsid_of df.
Proof.
  intros Hsel. unfold rsid_of.
  by rewrite (find_column_select df out "rsid" _ Hsel).
Qed.










(** ** Which rows the two filters keep *)

Lemma keep_isin_requested (L : list string) (xs : list cell) (x : cell) :
  x ∈ keep (isin xs (list_to_set L)) xs → ∃ r, x = Text r ∧ r ∈ L.
Proof.
  induction xs as [|[s|] xs IH]; simpl; [by intros ?%elem_of_nil | | done].
  case_bool_decide as Hs; [|done].
  intros [->|Hin]%elem_of_cons; [|by apply IH].
  exists s. split; [done|]. by apply elem_of_list_to_set in Hs.
Qed.

Lemma occurrences_cons (r : string) (x : cell) (xs : list cell) :
  occurrences r (x :: xs)
  = (if decide (x = Text r) then 1 else 0) + occurrences r xs.
Proof. unfold occurrences. rewrite filter_cons. by case_decide. Qed.



Lemma occurrences_keep_isin (L : list string) (xs : list cell) (r : string) :
  r ∈ L →
  occurrences r (keep (isin xs (list_to_set L)) xs) = occurrences r xs.
Proof.
  intros Hr. induction xs as [|[s|] xs IH]; simpl; [done| |].
  - case_bool_decide as Hs.
    + by rewrite !occurrences_cons, IH.
    + rewrite occurrences_cons, IH. case_decide as Heq; [|done].
      simplify_eq. destruct Hs. by apply elem_of_list_to_set.
  - rewrite occurrences_cons, IH. by case_decide.
Qed.






(** ** The branches of [query_gwas] *)

Lemma recognized_cases (ext : string) :
  ext ∈ recognized ↔ ext = ".parquet" ∨ ext = ".duckdb".
Proof. unfold recognized. set_solver. Qed.

Lemma path_exists_true (fs : gmap string file) (p : string) :
  is_Some (fs !! p) → path_exists fs p = true.
Proof. intros. by apply bool_decide_eq_true. Qed.

Lemma query_gwas_not_found (fs : gmap string file) (p : string) (L : list string) :
  fs !! p = None →
  query_gwas fs p L
  = Outcome (Raise (GWASQueryError ("File does not exist: " +:+ p))) None.
Proof.
  intros Hnone. unfold query_gwas, path_exists.
  rewrite bool_decide_eq_false_2; [done|]. rewrite Hnone. by intros [? ?].
Qed.

Lemma query_gwas_unsupported (fs : gmap string file) (p : string) (L : list string) :
  is_Some (fs !! p) → extension p ∉ recognized →
  query_gwas fs p L
  = Outcome (Raise (GWASQueryError ("Unsupported file type: " +:+ extension p
               +:+ ". Only .parquet and .duckdb are supported."))) None.
Proof.
  intros Hsome Hext. unfold query_gwas.
  rewrite path_exists_true by done. cbv zeta. fold (extension p).
  by rewrite bool_decide_eq_false_2.
Qed.

Lemma query_gwas_empty (fs : gmap string file) (p : string) :
  is_Some (fs !! p) → extension p ∈ recognized →
  query_gwas fs p [] = Outcome (Return (empty_frame REQUIRED_COLUMNS)) None.
Proof.
  intros Hsome Hext. unfold query_gwas.
  rewrite path_exists_true by done. cbv zeta. fold (extension p).
  by rewrite bool_decide_eq_true_2.
Qed.

(** Lines 88-101 on a loaded frame: the column check, the in-memory
    filter of the parquet branch, and the selection of the schema. *)
Lemma query_gwas_parquet (fs : gmap string file) (p : string) (L : list string) :
  is_Some (fs !! p) → extension p = ".parquet" → L ≠ [] →
  query_gwas fs p L
  = match read_parquet fs p with
    | Raise e =>
        Outcome (Raise (GWASQueryError ("Failed to load GWAS file: " +:+ str e))) None
    | Return df =>
        match missing_columns df with
        | _ :: _ =>
            Outcome (Raise (GWASQueryError ("Missing required columns: "
                              +:+ String.concat ", " (missing_columns df)))) None
        | [] =>
            Outcome (filtered ← (rsid ← getitem df "rsid";
                                 mret (boolean_index df (isin rsid (list_to_set L))));
                     select filtered REQUIRED_COLUMNS) None
        end
    end.
Proof.
  intros Hsome Hext HL. unfold query_gwas.
  rewrite path_exists_true by done. cbv zeta. fold (extension p).
  rewrite Hext. destruct L as [|r L]; [done|].
  change (bool_decide (".parquet" ∈ ({[".parquet"; ".duckdb"]} : gset string)))
    with (bool_decide (".parquet" ∈ recognized)).
  rewrite bool_decide_eq_true_2 by (apply recognized_cases; by left).
  change (String.eqb ".parquet" ".parquet") with true. cbv iota.
  destruct (read_parquet fs p) as [df|e]; [|done].
  fold (missing_columns df). by destruct (missing_columns df).
Qed.

Lemma query_gwas_duckdb_connect (fs : gmap string file) (p : string)
    (L : list string) :
  is_Some (fs !! p) → extension p = ".duckdb" → L ≠ [] →
  query_gwas fs p L
  = match duckdb_connect fs p with
    | Raise e =>
        Outcome (Raise (GWASQueryError ("Failed to load GWAS file: " +:+ str e))) None
    | Return con0 =>
        match duckdb_load L con0 with
        | (Raise e, con) =>
            Outcome (Raise (GWASQueryError ("Failed to load GWAS file: " +:+ str e)))
                    (Some con)
        | (Return df, con) =>
            match missing_columns df with
            | _ :: _ =>
                Outcome (Raise (GWASQueryError ("Missing required columns: "
                                  +:+ String.concat ", " (missing_columns df))))
                        (Some con)
            | [] => Outcome (select df REQUIRED_COLUMNS) (Some con)
            end
        end
    end.
Proof.
  intros Hsome Hext HL. unfold query_gwas.
  rewrite path_exists_true by done. cbv zeta. fold (extension p).
  rewrite Hext. destruct L as [|r L]; [done|].
  change (bool_decide (".duckdb" ∈ ({[".parquet"; ".duckdb"]} : gset string)))
    with (bool_decide (".duckdb" ∈ recognized)).
  rewrite bool_decide_eq_true_2 by (apply recognized_cases; by right).
  change (String.eqb ".duckdb" ".parquet") with false.
  change (String.eqb ".duckdb" ".duckdb") with true. cbv iota.
  destruct (duckdb_connect fs p) as [con0|e]; [|done].
  destruct (duckdb_load (r :: L) con0) as [[df|e] con]; [|done].
  fold (missing_columns df). by destruct (missing_columns df).
Qed.

Lemma query_gwas_duckdb (fs : gmap string file) (p : string) (L : list string)
    (tables : list (string * DataFrame)) :
  fs !! p = Some (DuckDBFile tables) → extension p = ".duckdb" → L ≠ [] →
  query_gwas fs p L
  = match duckdb_load L (connect tables) with
    | (Raise e, con) =>
        Outcome (Raise (GWASQueryError ("Failed to load GWAS file: " +:+ str e)))
                (Some con)
    | (Return df, con) =>
        match missing_columns df with
        | _ :: _ =>
            Outcome (Raise (GWASQueryError ("Missing required columns: "
                              +:+ String.concat ", " (missing_columns df))))
                    (Some con)
        | [] => Outcome (select df REQUIRED_COLUMNS) (Some con)
        end
    end.
Proof.
  intros Hfile Hext HL.
  rewrite query_gwas_duckdb_connect by (by rewrite ?Hfile).
  unfold duckdb_connect. by rewrite Hfile.
Qed.

(** ** Running the [.duckdb] branch *)

(** One step of a sequence of calls on a connection. *)
Lemma bind_run {A B} (m : DB A) (f : A → DB B) (con : connection) :
  (m ≫= f) con
  = match m con with
    | (Return a, con') => f a con'
    | (Raise e, con') => (Raise e, con')
    end.
Proof. reflexivity. Qed.

Lemma insert_values_plain (chunk old : list string) (con : connection) :
  chunk ≠ [] → Forall (λ r, plain r = true) chunk →
  filter_rsid con = Some old →
  insert_values (values_text chunk) con
  = (Return (), Connection (catalog con) (Some (old ++ chunk)) (is_open con)
                  (executed con ++ [InsertValues (values_text chunk)])).
Proof.
  intros Hne Hplain Hold. unfold insert_values.
  rewrite parse_values_text by done. simpl. by rewrite Hold.
Qed.

Lemma insert_chunks_plain (L : list string) (step : nat) (starts : list nat)
    (con : connection) (old : list string) :
  0 < step →
  Forall (λ r, plain r = true) L →
  Forall (λ i, i < length L) starts →
  filter_rsid con = Some old →
  insert_chunks L step starts con
  = (Return (),
     Connection (catalog con)
       (Some (old ++ mjoin ((λ i, list_slice L i (i + step)) <$> starts)))
       (is_open con)
       (executed con
        ++ ((λ i, InsertValues (values_text (list_slice L i (i + step)))) <$> starts))).
Proof.
  intros Hstep Hplain Hstarts. revert con old.
  induction Hstarts as [|i starts Hi _ IH]; intros con old Hold.
  - simpl. rewrite !app_nil_r. destruct con. simpl in Hold. by subst.
  - cbn [insert_chunks]. rewrite bind_run.
    rewrite (insert_values_plain _ old) by
      (first [ done
             | rewrite list_slice_step; by apply Forall_take, Forall_drop
             | rewrite list_slice_step; intros Hnil;
               apply (f_equal length) in Hnil;
               rewrite length_take, length_drop in Hnil; simpl in Hnil; lia ]).
    rewrite (IH _ (old ++ list_slice L i (i + step))) by done.
    simpl. by rewrite <- !app_assoc.
Qed.

Lemma insert_chunks_sent (L : list string) (step : nat) (starts : list nat)
    (con : connection) :
  ∃ k, catalog (insert_chunks L step starts con).2 = catalog con
     ∧ is_open (insert_chunks L step starts con).2 = is_open con
     ∧ executed (insert_chunks L step starts con).2
       = executed con
         ++ ((λ i, InsertValues (values_text (list_slice L i (i + step))))
             <$> take k starts).
Proof.
  revert con. induction starts as [|i starts IH]; intros con.
  - exists 0. simpl. by rewrite app_nil_r.
  - cbn [insert_chunks]. rewrite bind_run. unfold insert_values.
    destruct (parse_values _) as [rows|];
      [destruct (filter_rsid (sent _ con)) as [old|] |];
      try (by exists 1).
    match goal with
    | |- context [insert_chunks L step starts ?c] =>
        destruct (IH c) as (k & Hcat & Hopen & Hlog)
    end.
    exists (S k). rewrite Hcat, Hopen, Hlog. simpl. by rewrite <- app_assoc.
Qed.

Lemma insert_chunks_raise_open (L : list string) (step : nat) (starts : list nat)
    (con : connection) :
  is_open (insert_chunks L step starts con).2 = is_open con.
Proof. by destruct (insert_chunks_sent L step starts con) as (k & _ & ? & _). Qed.

Lemma insert_chunks_raise_text (L : list string) (step : nat) (starts : list nat)
    (con con' : connection) (e : exn) :
  insert_chunks L step starts con = (Raise e, con') → no_tables_text e = false.
Proof.
  revert con. induction starts as [|i starts IH]; intros con; [done|].
  cbn [insert_chunks]. rewrite bind_run. unfold insert_values.
  destruct (parse_values _) as [rows|];
    [destruct (filter_rsid (sent _ con)) as [old|] |];
    try (by intros [= <- <-]).
  apply IH.
Qed.

Lemma queried_table_find (tables : list (string * DataFrame)) (name : string)
    (T : DataFrame) :
  queried_table tables = Some (name, T) →
  (if bool_decide ("associations_clean" ∈ tables.*1)
   then name = "associations_clean"
   else ∃ rest, tables = (name, T) :: rest)
  ∧ ∃ i, list_find (λ t, t.1 = name) tables = Some (i, (name, T)).
Proof.
  unfold queried_table. case_bool_decide as Hin.
  - destruct (list_find _ tables) as [[i [name' T']]|] eqn:Hfind; [|done].
    intros [= -> ->]. pose proof Hfind as Hname.
    apply list_find_Some in Hname as (_ & Hname & _). simpl in Hname.
    subst name. eauto.
  - destruct tables as [|[name' T'] rest]; [done|]. intros [= -> ->].
    split; [eauto|]. exists 0. simpl. by rewrite decide_True.
Qed.

Lemma duckdb_load_plain (tables : list (string * DataFrame)) (L : list string)
    (name : string) (T : DataFrame) :
  L ≠ [] → Forall (λ r, plain r = true) L →
  queried_table tables = Some (name, T) →
  duckdb_load L (connect tables)
  = if negb (unquoted name)
    then (Raise (parser_error name), Connection tables (Some L) true (full_log name L))
    else
      match inner_join (if String.eqb (lower name) "filter_rsid"
                        then [("rsid", Text <$> L)] else T) L with
      | Some df => (Return df, Connection tables None false (full_log name L))
      | None => (Raise binder_error, Connection tables (Some L) true (full_log name L))
      end.
Proof.
  intros HL Hplain Hq. apply queried_table_find in Hq as [Hname [i Hfind]].
  unfold duckdb_load, full_log, chunks.
  pose proof chunk_size_pos as Hstep.
  remember (N.to_nat chunk_size) as step eqn:Hs. clear Hs.
  rewrite bind_run. unfold show_tables at 1, connect, sent.
  cbn [catalog executed filter_rsid is_open]. rewrite bind_run.
  assert ((if bool_decide ("associations_clean" ∈ tables.*1)
           then mret "associations_clean"
           else match tables.*1 with
                | first :: _ => mret first
                | [] => throw (GWASQueryError "No tables found in DuckDB file.")
                end) = (mret name : DB string)) as ->.
  { destruct (bool_decide _); [by subst|]. by destruct Hname as [rest ->]. }
  unfold mret at 1, DB_ret at 1.
  rewrite bind_run. unfold create_temp_table, sent.
  cbn [catalog executed filter_rsid is_open]. rewrite bind_run.
  rewrite (insert_chunks_plain L step _ _ []);
    [ | done | done
      | apply Forall_forall; intros j Hj; by apply (range_step_lt _ step)
      | done ].
  cbn [catalog executed filter_rsid is_open].
  fold (chunks_by step L). rewrite chunks_by_join by done.
  rewrite bind_run. unfold select_join, resolve, sent.
  cbn [catalog executed filter_rsid is_open]. rewrite Hfind.
  unfold chunks_by. rewrite <- list_fmap_compose.
  rewrite !app_nil_l. destruct (unquoted name); [|done]. cbn [negb].
  destruct (String.eqb (lower name) "filter_rsid");
    by destruct (inner_join _ L) as [df|].
Qed.



(** What the run leaves behind, whatever the join gives. *)
Lemma duckdb_load_log (tables : list (string * DataFrame)) (L : list string)
    (name : string) (T : DataFrame) (r : result DataFrame) (con : connection) :
  L ≠ [] → Forall (λ r, plain r = true) L →
  queried_table tables = Some (name, T) →
  duckdb_load L (connect tables) = (r, con) →
  con = Connection tables
          (match r with Return _ => None | Raise _ => Some L end)
          (match r with Return _ => false | Raise _ => true end)
          (full_log name L).
Proof.
  intros HL Hplain Hq. rewrite (duckdb_load_plain tables L name T) by done.
  destruct (unquoted name); cbn [negb]; [|by intros [= <- <-]].
  destruct (inner_join _ L); by intros [= <- <-].
Qed.

Lemma duckdb_load_no_tables (L : list string) :
  duckdb_load L (connect [])
  = (Raise (GWASQueryError "No tables found in DuckDB file."),
     Connection [] None true [ShowTables]).
Proof. reflexivity. Qed.

Lemma duckdb_load_sent (tables : list (string * DataFrame)) (L : list string)
    (first : string) (T0 : DataFrame) (rest : list (string * DataFrame))
    (r : result DataFrame) (con : connection) :
  tables = (first, T0) :: rest →
  duckdb_load L (connect tables) = (r, con) →
  ∃ k tail,
    executed con
    = [ShowTables; CreateTempTable]
      ++ ((λ b, InsertValues (values_text b)) <$> take k (chunks L)) ++ tail
    ∧ (tail = [] ∨
       tail = [SelectJoin (if bool_decide ("associations_clean" ∈ tables.*1)
                           then "associations_clean" else first)])
    ∧ is_open con = match r with
                    | Return _ => false
                    | Raise _ => true
                    end
    ∧ match r with
      | Return _ => True
      | Raise e => no_tables_text e = false
      end.
Proof.
  intros Htables. unfold duckdb_load, chunks, chunks_by.
  remember (N.to_nat chunk_size) as step eqn:Hs. clear Hs.
  rewrite bind_run. unfold show_tables at 1, connect, sent.
  cbn [catalog executed filter_rsid is_open]. rewrite bind_run.
  set (name := if bool_decide ("associations_clean" ∈ tables.*1)
               then "associations_clean" else first).
  assert ((if bool_decide ("associations_clean" ∈ tables.*1)
           then mret "associations_clean"
           else match tables.*1 with
                | first :: _ => mret first
                | [] => throw (GWASQueryError "No tables found in DuckDB file.")
                end) = (mret name : DB string)) as ->.
  { subst name. destruct (bool_decide _); [done|]. by subst tables. }
  unfold mret at 1, DB_ret at 1.
  rewrite bind_run. unfold create_temp_table, sent.
  cbn [catalog executed filter_rsid is_open]. rewrite bind_run.
  match goal with
  | |- context [insert_chunks L step ?starts ?c] =>
      destruct (insert_chunks_sent L step starts c) as (k & _ & Hopen & Hlog);
      pose proof (insert_chunks_raise_text L step starts c) as Htext;
      destruct (insert_chunks L step starts c) as [[u|e] con2]
  end; cbn [fst snd catalog executed filter_rsid is_open] in *.
  - rewrite bind_run. unfold select_join, sent.
    cbn [catalog executed filter_rsid is_open].
    intros Hrun. exists k, [SelectJoin name].
    destruct (unquoted name); cbn [negb] in Hrun;
      [destruct (resolve _ _) as [a|];
       [destruct (filter_rsid con2) as [ids|];
        [destruct (inner_join a ids) as [df|]|]|]|];
      injection Hrun as <- <-;
      cbn [fst snd catalog executed filter_rsid is_open];
      rewrite ?Hopen, Hlog;
      (split_and!; [by rewrite !fmap_take, <- list_fmap_compose, <- ?app_assoc
                   | auto | done | done]).
  - intros [= <- <-]. exists k, []. rewrite Hopen, Hlog, app_nil_r.
    split_and!; [by rewrite !fmap_take, <- list_fmap_compose | auto | done
                | by eapply Htext].
Qed.

Lemma duckdb_load_keeps_catalog (L : list string)
    (tables : list (string * DataFrame)) :
  catalog (duckdb_load L (connect tables)).2 = tables.
Proof.
  unfold duckdb_load.
  remember (N.to_nat chunk_size) as step eqn:Hs. clear Hs.
  rewrite bind_run. unfold show_tables at 1, connect, sent.
  cbn [catalog executed filter_rsid is_open]. rewrite bind_run.
  destruct (bool_decide ("associations_clean" ∈ tables.*1));
    [|destruct tables as [|[first T0] rest]; [done|]];
    unfold mret at 1, DB_ret at 1; cbn [fmap list_fmap fst];
    rewrite bind_run; unfold create_temp_table, sent;
    cbn [catalog executed filter_rsid is_open]; rewrite bind_run;
    match goal with
    | |- context [insert_chunks L step ?starts ?c] =>
        destruct (insert_chunks_sent L step starts c) as (k & Hcat & _ & _);
        destruct (insert_chunks L step starts c) as [[u|e] con2]
    end; cbn [fst snd catalog] in *; try done;
    rewrite bind_run; unfold select_join, sent;
    cbn [catalog executed filter_rsid is_open];
    destruct (unquoted _); cbn [negb]; try done;
    destruct (resolve _ _) as [a|]; try done;
    destruct (filter_rsid con2) as [ids|]; try done;
    destruct (inner_join a ids) as [df|]; done.
Qed.

Lemma duckdb_load_lists_first (L : list string)
    (tables : list (string * DataFrame)) :
  head (executed (duckdb_load L (connect tables)).2) = Some ShowTables.
Proof.
  destruct tables as [|[first T0] rest]; [done|].
  destruct (duckdb_load L (connect ((first, T0) :: rest))) as [r con] eqn:Hrun.
  destruct (duckdb_load_sent _ L first T0 rest r con eq_refl Hrun)
    as (k & tail & Hlog & _).
  cbn [snd]. by rewrite Hlog.
Qed.

Lemma select_raises_KeyError (df : DataFrame) (labels : list string) (e : exn) :
  select df labels = Raise e → ∃ c, e = KeyError c.
Proof.
  induction labels as [|c labels IH]; simpl; [done|].
  destruct (find_column df c); [|intros [= <-]; eauto].
  destruct (select df labels) as [rest|e']; [done|].
  intros [= <-]. by apply IH.
Qed.

Lemma unsupported_format_select (df : DataFrame) (labels : list string) :
  unsupported_format (select df labels) = false.
Proof.
  destruct (select df labels) as [out|e] eqn:Hsel; [done|].
  by apply select_raises_KeyError in Hsel as [c ->].
Qed.

(** * The specified properties *)

(** ** The empty identifier list *)

(** C6: for an existing file with a recognized extension, an empty
    identifier list gives a table of zero rows under the full schema of
    17 columns, on both backends and whatever the file holds: no column
    is checked, no file is read and no connection is opened. *)
Theorem empty_list_fast_path (fs : gmap string file) (p : string) (f : file) :
  fs !! p = Some f →
  extension p = ".parquet" ∨ extension p = ".duckdb" →
  ∃ df, query_gwas fs p [] = Outcome (Return df) None
      ∧ columns df = REQUIRED_COLUMNS
      ∧ length (columns df) = 17
      ∧ Forall (λ col, col.2 = []) df.
Proof.
  intros Hfile Hext. exists (empty_frame REQUIRED_COLUMNS).
  split; [|split; [done | split; [done|]]].
  - apply query_gwas_empty; [by rewrite Hfile | by apply recognized_cases].
  - unfold empty_frame. apply Forall_fmap, Forall_forall. done.
Qed.

Lemma empty_list_fast_path_witness :
  ∃ df, query_gwas (sample_fs (drop_column "rsid" (make_gwas_df ["rs1"])))
          "gwas.duckdb" []
        = Outcome (Return df) None
      ∧ columns df = REQUIRED_COLUMNS
      ∧ length (columns df) = 17
      ∧ Forall (λ col, col.2 = []) df.
Proof.
  apply (empty_list_fast_path _ "gwas.duckdb"
           (DuckDBFile [("associations_clean",
                         drop_column "rsid" (make_gwas_df ["rs1"]))])).
  - vm_compute. reflexivity.
  - right. reflexivity.
Defined.

(** ** The extension check *)

(** C7, refuted as stated: the path [gwas.txt] has an unsupported
    extension, yet when no such file exists the call fails with the
    not-found error of line 41, not with the unsupported-format error. *)
Lemma unsupported_extension_needs_existing_file :
  extension "gwas.txt" = ".txt"
  ∧ result_of (query_gwas ∅ "gwas.txt" ["rs1"])
    = Raise (GWASQueryError "File does not exist: gwas.txt")
  ∧ result_of (query_gwas ∅ "gwas.txt" ["rs1"])
    ≠ Raise (GWASQueryError
               "Unsupported file type: .txt. Only .parquet and .duckdb are supported.").
Proof. split; [reflexivity|]. split; [vm_compute; reflexivity | vm_compute; discriminate]. Qed.

(** C7, amended: for every path whose lower-cased extension is neither
    [.parquet] nor [.duckdb], the call fails: with the
    unsupported-format error naming that extension when the path exists,
    whatever the file holds and whatever the identifier list is, and with
    the not-found error when the path does not exist. *)
Theorem unsupported_extension_rejected (fs : gmap string file) (p : string)
    (L : list string) :
  extension p ≠ ".parquet" → extension p ≠ ".duckdb" →
  query_gwas fs p L
  = match fs !! p with
    | Some _ =>
        Outcome (Raise (GWASQueryError ("Unsupported file type: " +:+ extension p
                          +:+ ". Only .parquet and .duckdb are supported."))) None
    | None =>
        Outcome (Raise (GWASQueryError ("File does not exist: " +:+ p))) None
    end.
Proof.
  intros Hp Hd. destruct (fs !! p) as [f|] eqn:Hfile.
  - apply query_gwas_unsupported; [by rewrite Hfile|].
    rewrite recognized_cases. by intros [?|?].
  - by apply query_gwas_not_found.
Qed.

Lemma unsupported_extension_rejected_witness :
  query_gwas (sample_fs (make_gwas_df ["rs1"])) "gwas.txt" ["rs1"]
  = Outcome (Raise (GWASQueryError
                      "Unsupported file type: .txt. Only .parquet and .duckdb are supported."))
      None.
Proof.
  apply (unsupported_extension_rejected (sample_fs (make_gwas_df ["rs1"]))
           "gwas.txt" ["rs1"]).
  - vm_compute. discriminate.
  - vm_compute. discriminate.
Defined.

(** C10: the extension is lower-cased before it is compared, so a path
    whose extension is an upper- or mixed-case variant of [.parquet] or
    [.duckdb] is not rejected as unsupported, and for a non-empty list it
    goes to the backend of its lower-cased extension, whatever the file
    holds.  Under [.parquet] the file at that path is read as a parquet
    table, filtered and returned, and no connection is opened; a file
    that is no parquet table gives the load failure.  Under [.duckdb] a
    connection to the database at that path is opened and its tables are
    listed; a file that is no database gives the load failure. *)
Theorem extension_case_insensitive (fs : gmap string file) (p : string)
    (f : file) (L : list string) :
  fs !! p = Some f →
  (lower (splitext p).2 = ".parquet" ∨ lower (splitext p).2 = ".duckdb" →
   unsupported_format (result_of (query_gwas fs p L)) = false)
  ∧ (L ≠ [] → lower (splitext p).2 = ".parquet" →
     connection_of (query_gwas fs p L) = None
     ∧ match f with
       | ParquetFile T =>
           result_of (query_gwas fs p L)
           = match missing_columns T with
             | [] =>
                 select (on_rows (keep (isin (rsid_of T) (list_to_set L))) T)
                   REQUIRED_COLUMNS
             | missing =>
                 Raise (GWASQueryError ("Missing required columns: "
                          +:+ String.concat ", " missing))
             end
       | _ => load_failure (result_of (query_gwas fs p L)) = true
       end)
  ∧ (L ≠ [] → lower (splitext p).2 = ".duckdb" →
     match f with
     | DuckDBFile tables =>
         ∃ con, connection_of (query_gwas fs p L) = Some con
              ∧ catalog con = tables
              ∧ head (executed con) = Some ShowTables
     | ParquetFile _ =>
         connection_of (query_gwas fs p L) = None
         ∧ load_failure (result_of (query_gwas fs p L)) = true
     | OtherFile => load_failure (result_of (query_gwas fs p L)) = true
     end).
Proof.
  intros Hfile. fold (extension p).
  assert (is_Some (fs !! p)) as Hsome by (by rewrite Hfile).
  split; [|split].
  - intros Hext. destruct L as [|r L].
    { rewrite query_gwas_empty; [done | done | by apply recognized_cases]. }
    destruct Hext as [Hext|Hext].
    + rewrite query_gwas_parquet by done.
      destruct (read_parquet fs p) as [df|e]; [|done].
      destruct (missing_columns df); [|done]. unfold getitem.
      destruct (find_column df "rsid") as [[c xs]|]; [|done].
      apply unsupported_format_select.
    + rewrite query_gwas_duckdb_connect by done.
      destruct (duckdb_connect fs p) as [con0|e]; [|done].
      destruct (duckdb_load _ _) as [[df|e] con]; [|done].
      destruct (missing_columns df); [|done].
      apply unsupported_format_select.
  - intros HL Hext. rewrite query_gwas_parquet by done.
    unfold read_parquet. rewrite Hfile.
    destruct f as [T|tables|]; [|by split; [|apply prefix_append]..].
    destruct (missing_columns T) as [|c missing] eqn:Hmiss; [|done].
    split; [done|]. cbn [result_of].
    pose proof (missing_columns_nil T Hmiss) as Hall.
    assert ("rsid" ∈ columns T) as Hrsid.
    { eapply Forall_forall in Hall; [done|]. unfold REQUIRED_COLUMNS. left. }
    unfold getitem, rsid_of.
    by destruct (find_column_is_Some T "rsid" Hrsid) as [xs ->].
  - intros HL Hext. rewrite query_gwas_duckdb_connect by done.
    unfold duckdb_connect. rewrite Hfile.
    destruct f as [T|tables|]; [by split; [|apply prefix_append] | | apply prefix_append].
    pose proof (duckdb_load_keeps_catalog L tables) as Hcat.
    pose proof (duckdb_load_lists_first L tables) as Hfirst.
    destruct (duckdb_load L (connect tables)) as [r con].
    exists con. split; [|done].
    destruct r as [df|e]; [|done]. by destruct (missing_columns df).
Qed.

Lemma extension_case_insensitive_witness :
  ∃ con,
    connection_of
      (query_gwas {[ "data/GWAS.DuckDB" :=
                       DuckDBFile [("associations_clean", make_gwas_df ["rs1"; "rs2"])] ]}
         "data/GWAS.DuckDB" ["rs2"]) = Some con
    ∧ catalog con = [("associations_clean", make_gwas_df ["rs1"; "rs2"])]
    ∧ head (executed con) = Some ShowTables.
Proof.
  apply (extension_case_insensitive
           {[ "data/GWAS.DuckDB" :=
                DuckDBFile [("associations_clean", make_gwas_df ["rs1"; "rs2"])] ]}
           "data/GWAS.DuckDB"
           (DuckDBFile [("associations_clean", make_gwas_df ["rs1"; "rs2"])])
           ["rs2"]).
  - vm_compute. reflexivity.
  - discriminate.
  - vm_compute. reflexivity.
Defined.

(** ** The output schema *)

(** C8: whenever the call returns, the columns of the returned table
    are exactly the 17 required columns in their fixed order, whatever
    the order of the columns of the input table and whatever other
    columns it has. *)
Theorem output_columns_are_required (fs : gmap string file) (p : string)
    (L : list string) (out : DataFrame) :
  result_of (query_gwas fs p L) = Return out →
  columns out = REQUIRED_COLUMNS ∧ length (columns out) = 17.
Proof.
  intros Hret. cut (columns out = REQUIRED_COLUMNS); [by intros ->|].
  destruct (fs !! p) as [f|] eqn:Hfile;
    [|by rewrite query_gwas_not_found in Hret].
  assert (is_Some (fs !! p)) as Hsome by (by rewrite Hfile).
  destruct (decide (extension p ∈ recognized)) as [Hext|Hext];
    [|by rewrite query_gwas_unsupported in Hret].
  destruct L as [|r L].
  { rewrite query_gwas_empty in Hret by done. by injection Hret as <-. }
  apply recognized_cases in Hext as [Hext|Hext].
  - rewrite query_gwas_parquet in Hret by done.
    destruct (read_parquet fs p) as [df|e]; [|done].
    destruct (missing_columns df); [|done]. cbn [result_of] in Hret.
    destruct (getitem df "rsid") as [rsid|e]; [|done].
    by apply select_columns with (df := boolean_index df (isin rsid (list_to_set (r :: L)))).
  - rewrite query_gwas_duckdb_connect in Hret by done.
    destruct (duckdb_connect fs p) as [con0|e]; [|done].
    destruct (duckdb_load _ con0) as [[df|e] con]; [|done].
    destruct (missing_columns df); [|done].
    by apply select_columns in Hret.
Qed.

Lemma output_columns_are_required_witness :
  ∃ out,
    result_of (query_gwas
                 (sample_fs (reordered_with_extra (make_gwas_df ["rs1"; "rs2"])))
                 "gwas.parquet" ["rs2"]) = Return out
    ∧ columns out = REQUIRED_COLUMNS ∧ length (columns out) = 17.
Proof.
  eexists. split; [vm_compute; reflexivity|].
  apply (output_columns_are_required
           (sample_fs (reordered_with_extra (make_gwas_df ["rs1"; "rs2"])))
           "gwas.parquet" ["rs2"]).
  vm_compute. reflexivity.
Defined.

(** ** Which rows are returned *)

(** The parquet branch keeps the rows whose identifier is in the list. *)
Lemma parquet_rows (fs : gmap string file) (p : string) (L : list string)
    (T out : DataFrame) :
  fs !! p = Some (ParquetFile T) → extension p = ".parquet" → L ≠ [] →
  result_of (query_gwas fs p L) = Return out →
  rsid_of out = keep (isin (rsid_of T) (list_to_set L)) (rsid_of T).
Proof.
  intros Hfile Hext HL. rewrite query_gwas_parquet by (by rewrite ?Hfile).
  unfold read_parquet. rewrite Hfile.
  destruct (missing_columns T) eqn:Hmiss; [|done].
  apply missing_columns_nil in Hmiss.
  assert ("rsid" ∈ columns T) as Hrsid.
  { eapply Forall_forall in Hmiss; [done|]. unfold REQUIRED_COLUMNS. left. }
  cbn [result_of]. unfold getitem.
  destruct (find_column_is_Some T "rsid" Hrsid) as [xs Hfind]. rewrite Hfind.
  assert (rsid_of T = xs) as -> by (unfold rsid_of; by rewrite Hfind).
  intros Hsel.
  change (select (on_rows (keep (isin xs (list_to_set L))) T) REQUIRED_COLUMNS
          = Return out) in Hsel.
  apply rsid_of_select in Hsel. rewrite Hsel, rsid_of_on_rows by done.
  unfold rsid_of. by rewrite Hfind.
Qed.

(** On the parquet branch the returned identifiers are requested ones and
    a requested identifier keeps the multiplicity it has in the table. *)
Lemma parquet_multiplicity (fs : gmap string file) (p : string) (L : list string)
    (T out : DataFrame) :
  fs !! p = Some (ParquetFile T) → extension p = ".parquet" → L ≠ [] →
  result_of (query_gwas fs p L) = Return out →
  (∀ x, x ∈ rsid_of out → ∃ r, x = Text r ∧ r ∈ L)
  ∧ (∀ r, r ∈ L → occurrences r (rsid_of out) = occurrences r (rsid_of T)).
Proof.
  intros Hfile Hext HL Hret.
  rewrite (parquet_rows fs p L T out) by done. split.
  - intros x. apply keep_isin_requested.
  - intros r. apply occurrences_keep_isin.
Qed.





(** C1, at the failing input: a table with one row for [rs1], queried on
    the [.duckdb] branch with the identifier [rs1] listed twice, comes
    back with two rows for [rs1].  The join of lines 78-79 pairs every
    table row with every entry of the temporary table, and the list is
    inserted as it is, without the de-duplication of line 96. *)
Theorem duckdb_repeated_identifier_repeats_rows :
  ∃ out,
    result_of (query_gwas (sample_fs (make_gwas_df ["rs1"])) "gwas.duckdb"
                 ["rs1"; "rs1"]) = Return out
    ∧ rsid_of out = [Text "rs1"; Text "rs1"]
    ∧ occurrences "rs1" (rsid_of out) = 2
    ∧ occurrences "rs1" (rsid_of (make_gwas_df ["rs1"])) = 1.
Proof. eexists. split; [vm_compute; reflexivity|]. by vm_compute. Qed.





(** C2, at failing inputs: on one table the two branches return
    different results.  With [rs2] listed twice the parquet branch
    returns its one row once and the [.duckdb] branch twice; with the
    identifier written with a doubled quote the parquet branch finds no
    row, while the text of the insert statement makes the engine match
    the row whose identifier has a single quote. *)
Theorem backends_disagree_on_repeated_or_quoted_identifier :
  (∃ once twice,
      result_of (query_gwas (sample_fs (make_gwas_df ["rs1"; "rs2"]))
                   "gwas.parquet" ["rs2"; "rs2"]) = Return once
      ∧ result_of (query_gwas (sample_fs (make_gwas_df ["rs1"; "rs2"]))
                     "gwas.duckdb" ["rs2"; "rs2"]) = Return twice
      ∧ rsid_of once = [Text "rs2"]
      ∧ rsid_of twice = [Text "rs2"; Text "rs2"])
  ∧ (∃ none one,
      result_of (query_gwas (sample_fs (make_gwas_df ["rs'1"]))
                   "gwas.parquet" ["rs''1"]) = Return none
      ∧ result_of (query_gwas (sample_fs (make_gwas_df ["rs'1"]))
                     "gwas.duckdb" ["rs''1"]) = Return one
      ∧ rsid_of none = []
      ∧ rsid_of one = [Text "rs'1"]).
Proof.
  split.
  - do 2 eexists. split; [vm_compute; reflexivity|].
    split; [vm_compute; reflexivity|]. by vm_compute.
  - do 2 eexists. split; [vm_compute; reflexivity|].
    split; [vm_compute; reflexivity|]. by vm_compute.
Qed.

(** ** The column check *)




(** ** The [.duckdb] branch: table, batches, connection *)

Lemma queried_table_is_Some (tables : list (string * DataFrame)) (first : string)
    (T0 : DataFrame) (rest : list (string * DataFrame)) :
  tables = (first, T0) :: rest →
  ∃ T, queried_table tables
       = Some (if bool_decide ("associations_clean" ∈ tables.*1)
               then "associations_clean" else first, T).
Proof.
  intros ->. unfold queried_table. case_bool_decide as Hin; [|by eexists].
  apply list_elem_of_fmap in Hin as ([name T] & Hname & Hin). simpl in Hname.
  destruct (list_find_elem_of (λ t : string * DataFrame, t.1 = "associations_clean")
              _ (name, T) Hin (eq_sym Hname)) as [[i [name' T']] Hfind].
  rewrite Hfind. apply list_find_Some in Hfind as (_ & Hname' & _).
  simpl in Hname'. subst name'. by eexists.
Qed.

Lemma full_log_last (name : string) (L : list string) :
  last (full_log name L) = Some (SelectJoin name).
Proof. unfold full_log. by rewrite !app_assoc, last_snoc. Qed.

Lemma sent_statements (L : list string) (k : nat) (tail : list statement)
    (name : string) (s : statement) :
  tail = [] ∨ tail = [SelectJoin name] →
  s ∈ [ShowTables; CreateTempTable]
      ++ ((λ b, InsertValues (values_text b)) <$> take k (chunks L)) ++ tail →
  s = ShowTables ∨ s = CreateTempTable ∨ s = SelectJoin name
  ∨ ∃ b, b ∈ chunks L ∧ s = InsertValues (values_text b).
Proof.
  intros Htail Hin. rewrite !elem_of_app in Hin.
  destruct Hin as [Hin|[Hin|Hin]].
  - apply elem_of_cons in Hin as [->|Hin]; [by left|].
    apply list_elem_of_singleton in Hin as ->. right. by left.
  - apply list_elem_of_fmap in Hin as (b & -> & Hb).
    do 3 right. exists b. split; [|done].
    apply elem_of_take in Hb as (i & Hi & _). by eapply list_elem_of_lookup_2.
  - destruct Htail as [->| ->]; [by apply elem_of_nil in Hin|].
    apply list_elem_of_singleton in Hin as ->. right. right. by left.
Qed.

(** C5: on the [.duckdb] branch the join reads the table named
    [associations_clean] when the listing has a table of exactly that
    name, and otherwise the first table of the listing; a database
    without tables makes the call fail, and the error the caller receives
    carries the no-tables message of line 66 behind the prefix that
    line 86 adds. *)
Theorem duckdb_table_resolution (fs : gmap string file) (p : string)
    (tables : list (string * DataFrame)) (L : list string) :
  fs !! p = Some (DuckDBFile tables) → extension p = ".duckdb" → L ≠ [] →
  match tables with
  | [] =>
      result_of (query_gwas fs p L)
      = Raise (GWASQueryError ("Failed to load GWAS file: "
                               +:+ "No tables found in DuckDB file."))
  | (first, _) :: _ =>
      ∃ con,
        connection_of (query_gwas fs p L) = Some con
        ∧ (∀ t, SelectJoin t ∈ executed con →
                t = if bool_decide ("associations_clean" ∈ tables.*1)
                    then "associations_clean" else first)
        ∧ (Forall (λ r, plain r = true) L →
           last (executed con)
           = Some (SelectJoin (if bool_decide ("associations_clean" ∈ tables.*1)
                               then "associations_clean" else first)))
        ∧ result_of (query_gwas fs p L)
          ≠ Raise (GWASQueryError ("Failed to load GWAS file: "
                                   +:+ "No tables found in DuckDB file."))
  end.
Proof.
  intros Hfile Hext HL. rewrite (query_gwas_duckdb fs p L tables) by done.
  destruct tables as [|[first T0] rest] eqn:Htables.
  { by rewrite duckdb_load_no_tables. }
  rewrite <- Htables in *.
  destruct (duckdb_load L (connect tables)) as [r con] eqn:Hrun.
  destruct (duckdb_load_sent tables L first T0 rest r con Htables Hrun)
    as (k & tail & Hlog & Htail & _ & Htext).
  exists con. split; [|split; [|split]].
  - destruct r as [df|e]; [|done]. by destruct (missing_columns df).
  - intros t Hin. rewrite Hlog in Hin.
    apply (sent_statements L k tail _ _ Htail) in Hin
      as [Hin|[Hin|[Hin|(b & _ & Hin)]]]; by simplify_eq.
  - intros Hplain.
    destruct (queried_table_is_Some tables first T0 rest Htables) as [T Hq].
    rewrite (duckdb_load_log tables L _ T r con HL Hplain Hq Hrun).
    apply full_log_last.
  - destruct r as [df|e].
    + destruct (missing_columns df); cbn [result_of].
      * destruct (select df REQUIRED_COLUMNS) as [out|e] eqn:Hsel; [done|].
        by apply select_raises_KeyError in Hsel as [c ->].
      * by intros [= Hmsg].
    + cbn [result_of]. intros [= Hmsg]. apply String.app_inj in Hmsg.
      unfold no_tables_text in Htext. by rewrite Hmsg in Htext.
Qed.

Lemma duckdb_table_resolution_witness :
  ∃ con,
    connection_of
      (query_gwas {[ "gwas.duckdb" :=
                       DuckDBFile [("studies", make_gwas_df ["rs9"]);
                                   ("associations_clean", make_gwas_df ["rs1"])] ]}
         "gwas.duckdb" ["rs1"]) = Some con
    ∧ (∀ t, SelectJoin t ∈ executed con → t = "associations_clean")
    ∧ (Forall (λ r, plain r = true) ["rs1"] →
       last (executed con) = Some (SelectJoin "associations_clean"))
    ∧ result_of
        (query_gwas {[ "gwas.duckdb" :=
                         DuckDBFile [("studies", make_gwas_df ["rs9"]);
                                     ("associations_clean", make_gwas_df ["rs1"])] ]}
           "gwas.duckdb" ["rs1"])
      ≠ Raise (GWASQueryError ("Failed to load GWAS file: "
                               +:+ "No tables found in DuckDB file.")).
Proof.
  apply (duckdb_table_resolution
           {[ "gwas.duckdb" :=
                DuckDBFile [("studies", make_gwas_df ["rs9"]);
                            ("associations_clean", make_gwas_df ["rs1"])] ]}
           "gwas.duckdb"
           [("studies", make_gwas_df ["rs9"]);
            ("associations_clean", make_gwas_df ["rs1"])] ["rs1"]).
  - vm_compute. reflexivity.
  - reflexivity.
  - discriminate.
Defined.


Lemma inserts_full_log (name : string) (L : list string) :
  inserts (full_log name L) = values_text <$> chunks L.
Proof.
  unfold full_log, inserts. rewrite !omap_app.
  change (omap _ [ShowTables; CreateTempTable]) with (@nil string).
  change (omap _ [SelectJoin name]) with (@nil string).
  rewrite app_nil_l, app_nil_r.
  induction (chunks L) as [|b bs IH]; [done|].
  rewrite !fmap_cons. cbn [omap list_omap]. by rewrite IH.
Qed.



(** On the [.duckdb] branch, for a list without quotes, every insert
    statement but the last carries exactly 50,000 identifiers, and the
    last carries the rest: the texts of the inserts the call has sent are
    those of batches that make up the list, all full but the last. *)
Theorem batches_full_but_last (fs : gmap string file) (p : string)
    (tables : list (string * DataFrame)) (name : string) (T : DataFrame)
    (L : list string) :
  fs !! p = Some (DuckDBFile tables) → extension p = ".duckdb" →
  queried_table tables = Some (name, T) → L ≠ [] →
  Forall (λ r, plain r = true) L →
  ∃ con batches last_batch,
    connection_of (query_gwas fs p L) = Some con
    ∧ inserts (executed con) = values_text <$> batches
    ∧ mjoin batches = L
    ∧ last batches = Some last_batch
    ∧ 0 < length last_batch
    ∧ (N.of_nat (length last_batch) ≤ 50000)%N
    ∧ Forall (λ b, N.of_nat (length b) = 50000%N)
        (take (length batches - 1) batches).
Proof.
  intros Hfile Hext Hq HL Hplain.
  pose proof (chunks_by_bounds (N.to_nat chunk_size) L chunk_size_pos) as Hbounds.
  pose proof (chunks_by_join (N.to_nat chunk_size) L chunk_size_pos) as Hjoin.
  pose proof (query_gwas_duckdb fs p L tables Hfile Hext HL) as Hcall.
  destruct (duckdb_load L (connect tables)) as [r con] eqn:Hrun.
  fold (chunks L) in Hbounds, Hjoin.
  destruct (last (chunks L)) as [b|] eqn:Hlast; cycle 1.
  { apply last_None in Hlast. rewrite Hlast in Hjoin.
    destruct HL. exact (eq_sym Hjoin). }
  exists con, (chunks L), b. split_and!.
  - rewrite Hcall. destruct r as [df|e]; [|done]. by destruct (missing_columns df).
  - rewrite (duckdb_load_log tables L name T r con HL Hplain Hq Hrun).
    apply inserts_full_log.
  - done.
  - done.
  - apply last_Some_elem_of in Hlast.
    eapply Forall_forall in Hbounds; [|exact Hlast]. simpl in Hbounds. lia.
  - apply last_Some_elem_of in Hlast.
    eapply Forall_forall in Hbounds; [|exact Hlast]. simpl in Hbounds.
    unfold chunk_size in Hbounds. lia.
  - eapply Forall_impl; [apply chunks_by_full, chunk_size_pos|].
    intros b' ->. by rewrite N2Nat.id.
Qed.

Lemma batches_full_but_last_witness :
  ∃ con batches last_batch,
    connection_of (query_gwas (sample_fs (make_gwas_df ["rs1"; "rs2"; "rs3"]))
                     "gwas.duckdb" ["rs2"; "rs3"]) = Some con
    ∧ inserts (executed con) = values_text <$> batches
    ∧ mjoin batches = ["rs2"; "rs3"]
    ∧ last batches = Some last_batch
    ∧ 0 < length last_batch
    ∧ (N.of_nat (length last_batch) ≤ 50000)%N
    ∧ Forall (λ b, N.of_nat (length b) = 50000%N)
        (take (length batches - 1) batches).
Proof.
  apply (batches_full_but_last
           (sample_fs (make_gwas_df ["rs1"; "rs2"; "rs3"])) "gwas.duckdb"
           [("associations_clean", make_gwas_df ["rs1"; "rs2"; "rs3"])]
           "associations_clean" (make_gwas_df ["rs1"; "rs2"; "rs3"])).
  - vm_compute. reflexivity.
  - reflexivity.
  - reflexivity.
  - discriminate.
  - repeat constructor.
Defined.

(** When the [.duckdb] branch has opened a connection, the connection is
    closed at return exactly when the load block of lines 58-82 ran to
    its end: on a normal return and on a failure of the column check. *)
Lemma duckdb_connection_at_return (fs : gmap string file) (p : string)
    (tables : list (string * DataFrame)) (L : list string) :
  fs !! p = Some (DuckDBFile tables) → extension p = ".duckdb" → L ≠ [] →
  ∃ con,
    connection_of (query_gwas fs p L) = Some con
    ∧ is_open con = match (duckdb_load L (connect tables)).1 with
                    | Return _ => false
                    | Raise _ => true
                    end.
Proof.
  intros Hfile Hext HL. rewrite (query_gwas_duckdb fs p L tables) by done.
  destruct (duckdb_load L (connect tables)) as [r con] eqn:Hrun.
  exists con. split.
  - destruct r as [df|e]; [|done]. by destruct (missing_columns df).
  - destruct tables as [|[first T0] rest].
    + rewrite duckdb_load_no_tables in Hrun. by injection Hrun as <- <-.
    + by destruct (duckdb_load_sent _ L first T0 rest r con eq_refl Hrun)
        as (k & tail & _ & _ & -> & _).
Qed.

(** C9, at failing inputs: the connection is still open when the call
    raises from inside the load block, because [con.close()] on line 82
    is reached only when every statement before it succeeded.  First
    input: a database without tables.  Second input: an identifier with a
    quote makes the insert fail; the connection is left open with its
    temporary table in place. *)
Theorem connection_left_open_when_load_fails :
  query_gwas (sample_fs (make_gwas_df ["rs1"])) "empty.duckdb" ["rs1"]
  = Outcome (Raise (GWASQueryError
                      "Failed to load GWAS file: No tables found in DuckDB file."))
      (Some (Connection [] None true [ShowTables]))
  ∧ ∃ e con,
      query_gwas (sample_fs (make_gwas_df ["rs1"])) "gwas.duckdb" ["rs'1"]
      = Outcome (Raise e) (Some con)
      ∧ is_open con = true
      ∧ filter_rsid con = Some []
      ∧ executed con = [ShowTables; CreateTempTable; InsertValues "('rs'1')"].
Proof.
  split; [vm_compute; reflexivity|].
  do 2 eexists. split; [vm_compute; reflexivity|]. by vm_compute.
Qed.

(** ** Worked cases *)

Example splitext_plain :
  splitext "data/gwas.parquet" = ("data/gwas", ".parquet").
Proof. reflexivity. Qed.

Example extension_mixed_case :
  extension "GWAS.DuckDB" = ".duckdb" ∧ extension "data/gwas.PARQUET" = ".parquet".
Proof. split; reflexivity. Qed.

(** A leading dot of the file name starts no extension, and a dot in a
    directory name does not count. *)
Example extension_hidden_file :
  extension "data/.parquet" = "" ∧ extension "v1.2/gwas" = "".
Proof. split; reflexivity. Qed.

Example range_step_covers : range_step 7 3 = [0; 3; 6].
Proof. reflexivity. Qed.

(** [test_filtering_returns_only_matching_rsids] *)
Example parquet_filter_keeps_matching_rows :
  ∃ out,
    result_of (query_gwas (sample_fs (make_gwas_df ["rs1"; "rs2"; "rs3"]))
                 "gwas.parquet" ["rs2"; "rs3"]) = Return out
    ∧ rsid_of out = [Text "rs2"; Text "rs3"].
Proof. eexists. split; [vm_compute; reflexivity | by vm_compute]. Qed.

(** Without a table named [associations_clean] the first listed table is
    read. *)
Example first_table_is_read :
  ∃ r con,
    query_gwas {[ "gwas.duckdb" :=
                    DuckDBFile [("studies", make_gwas_df ["rs9"]);
                                ("associations", make_gwas_df ["rs1"])] ]}
      "gwas.duckdb" ["rs1"; "rs9"]
    = Outcome (Return r) (Some con)
    ∧ rsid_of r = [Text "rs9"]
    ∧ executed con = [ShowTables; CreateTempTable;
                      InsertValues "('rs1'),('rs9')"; SelectJoin "studies"].
Proof. do 2 eexists. split; [vm_compute; reflexivity | by vm_compute]. Qed.

(** * Further properties of [query_gwas] *)

Lemma parquet_multiplicity_witness :
  (∀ x, x ∈ [Text "rs2"; Text "rs2"] → ∃ r, x = Text r ∧ r ∈ ["rs2"; "rs9"; "rs2"])
  ∧ (∀ r, r ∈ ["rs2"; "rs9"; "rs2"] →
          occurrences r [Text "rs2"; Text "rs2"]
          = occurrences r (rsid_of (make_gwas_df ["rs1"; "rs2"; "rs2"]))).
Proof.
  apply (parquet_multiplicity (sample_fs (make_gwas_df ["rs1"; "rs2"; "rs2"]))
           "gwas.parquet" ["rs2"; "rs9"; "rs2"]
           (make_gwas_df ["rs1"; "rs2"; "rs2"])
           (make_gwas_df ["rs2"; "rs2"])).
  - vm_compute. reflexivity.
  - reflexivity.
  - discriminate.
  - vm_compute. reflexivity.
Defined.



Lemma find_column_select_distinct (df out : DataFrame) (labels : list string)
    (c : string) :
  select df labels = Return out → NoDup labels → c ∈ labels →
  find_column out c = find_column df c.
Proof.
  revert out. induction labels as [|c0 labels IH]; intros out Hsel Hdistinct Hc.
  { by apply elem_of_nil in Hc. }
  apply NoDup_cons in Hdistinct as [Hc0 Hdistinct].
  destruct (decide (c = c0)) as [->|Hne].
  { by apply find_column_select in Hsel. }
  apply elem_of_cons in Hc as [?|Hc]; [done|].
  simpl in Hsel. destruct (find_column df c0) as [[c' xs]|] eqn:Hfind; [|done].
  destruct (select df labels) as [rest|e]; [|done].
  injection Hsel as <-. apply find_column_Some in Hfind as [Hc' _].
  simpl in Hc'. subst c'. simpl.
  rewrite (proj2 (String.eqb_neq c0 c)) by done. by apply IH.
Qed.

Lemma REQUIRED_COLUMNS_distinct : NoDup REQUIRED_COLUMNS.
Proof. refine (bool_decide_unpack (NoDup REQUIRED_COLUMNS) _). by vm_compute. Qed.



(** On the parquet branch every column of the result is the column of the
    same name of the file, cut down by one and the same mask: the rows are
    kept whole, in the order of the file. *)
Theorem parquet_rows_stay_aligned (fs : gmap string file) (p : string)
    (L : list string) (T out : DataFrame) (c : string) (xs : list cell) :
  fs !! p = Some (ParquetFile T) → extension p = ".parquet" → L ≠ [] →
  result_of (query_gwas fs p L) = Return out →
  c ∈ REQUIRED_COLUMNS → find_column T c = Some (c, xs) →
  find_column out c
  = Some (c, keep (isin (rsid_of T) (list_to_set L)) xs).
Proof.
  intros Hfile Hext HL Hret Hc Hxs.
  rewrite query_gwas_parquet in Hret by (by rewrite ?Hfile).
  unfold read_parquet in Hret. rewrite Hfile in Hret.
  destruct (missing_columns T) eqn:Hmiss; [|done].
  apply missing_columns_nil in Hmiss.
  assert ("rsid" ∈ columns T) as Hrsid.
  { eapply Forall_forall in Hmiss; [done|]. unfold REQUIRED_COLUMNS. left. }
  cbn [result_of] in Hret. unfold getitem in Hret.
  destruct (find_column_is_Some T "rsid" Hrsid) as [rsid Hfind].
  rewrite Hfind in Hret.
  assert (rsid_of T = rsid) as -> by (unfold rsid_of; by rewrite Hfind).
  change (select (on_rows (keep (isin rsid (list_to_set L))) T) REQUIRED_COLUMNS
          = Return out) in Hret.
  rewrite (find_column_select_distinct _ out REQUIRED_COLUMNS c Hret
             REQUIRED_COLUMNS_distinct Hc).
  by rewrite find_column_on_rows, Hxs.
Qed.

Lemma parquet_rows_stay_aligned_witness :
  find_column (make_gwas_df ["rs2"; "rs3"]) "trait"
  = Some ("trait",
          keep (isin (rsid_of (make_gwas_df ["rs1"; "rs2"; "rs3"]))
                  (list_to_set ["rs3"; "rs2"]))
            [Text "val_trait"; Text "val_trait"; Text "val_trait"]).
Proof.
  apply (parquet_rows_stay_aligned
           (sample_fs (make_gwas_df ["rs1"; "rs2"; "rs3"])) "gwas.parquet"
           ["rs3"; "rs2"] (make_gwas_df ["rs1"; "rs2"; "rs3"])).
  - vm_compute. reflexivity.
  - reflexivity.
  - discriminate.
  - vm_compute. reflexivity.
  - refine (bool_decide_unpack ("trait" ∈ REQUIRED_COLUMNS) _). vm_compute. exact I.
  - vm_compute. reflexivity.
Defined.

(** On the parquet branch the result depends on the identifier list only
    through the set of its elements: order and repetitions do not
    matter. *)
Theorem parquet_depends_on_identifier_set (fs : gmap string file) (p : string)
    (f : file) (L L' : list string) :
  fs !! p = Some f → extension p = ".parquet" → L ≠ [] → L' ≠ [] →
  (∀ r, r ∈ L ↔ r ∈ L') →
  query_gwas fs p L = query_gwas fs p L'.
Proof.
  intros Hfile Hext HL HL' Hsame.
  rewrite !query_gwas_parquet by (by rewrite ?Hfile).
  assert ((list_to_set L : gset string) = list_to_set L') as ->; [|done].
  apply set_eq. intros r. by rewrite !elem_of_list_to_set.
Qed.

Lemma parquet_depends_on_identifier_set_witness :
  query_gwas (sample_fs (make_gwas_df ["rs1"; "rs2"])) "gwas.parquet"
    ["rs2"; "rs1"; "rs2"]
  = query_gwas (sample_fs (make_gwas_df ["rs1"; "rs2"])) "gwas.parquet"
      ["rs1"; "rs2"].
Proof.
  apply (parquet_depends_on_identifier_set
           (sample_fs (make_gwas_df ["rs1"; "rs2"])) "gwas.parquet"
           (ParquetFile (make_gwas_df ["rs1"; "rs2"]))).
  - vm_compute. reflexivity.
  - reflexivity.
  - discriminate.
  - discriminate.
  - intros r. rewrite !elem_of_cons, !elem_of_nil. tauto.
Defined.

Lemma select_required_returns f (df : DataFrame) :
  missing_columns df = [] →
  ∃ out, select (on_rows f df) REQUIRED_COLUMNS = Return out.
Proof.
  intros Hmiss. apply select_present. rewrite columns_on_rows.
  by apply missing_columns_nil.
Qed.

Lemma on_rows_id (df : DataFrame) : on_rows (λ xs, xs) df = df.
Proof.
  unfold on_rows. induction df as [|[c xs] df IH]; [done|].
  rewrite fmap_cons. simpl. by rewrite IH.
Qed.

(** The only exception that leaves [query_gwas] is [GWASQueryError], with
    one of four messages: file not found, unsupported type, load failure,
    missing columns.  No exception of pandas or of the engine gets out
    unwrapped, and the lookups of lines 97 and 100 cannot fail once the
    column check has passed. *)
Theorem only_GWASQueryError_is_raised (fs : gmap string file) (p : string)
    (L : list string) (e : exn) :
  result_of (query_gwas fs p L) = Raise e →
  ∃ msg, e = GWASQueryError msg
       ∧ (String.prefix "File does not exist: " msg
          || String.prefix "Unsupported file type: " msg
          || String.prefix "Failed to load GWAS file: " msg
          || String.prefix "Missing required columns: " msg = true).
Proof.
  intros Hret.
  destruct (fs !! p) as [f|] eqn:Hfile; cycle 1.
  { rewrite query_gwas_not_found in Hret by done. injection Hret as <-.
    eexists. split; [done|]. by rewrite prefix_append. }
  assert (is_Some (fs !! p)) as Hsome by (by rewrite Hfile).
  destruct (decide (extension p ∈ recognized)) as [Hext|Hext]; cycle 1.
  { rewrite query_gwas_unsupported in Hret by done. injection Hret as <-.
    eexists. split; [done|]. by rewrite prefix_append. }
  destruct L as [|r L]; [by rewrite query_gwas_empty in Hret|].
  apply recognized_cases in Hext as [Hext|Hext].
  - rewrite query_gwas_parquet in Hret by done.
    destruct (read_parquet fs p) as [df|e'];
      [|injection Hret as <-; eexists; split; [done | by rewrite prefix_append]].
    destruct (missing_columns df) eqn:Hmiss;
      [|injection Hret as <-; eexists; split; [done | by rewrite prefix_append]].
    exfalso. cbn [result_of] in Hret.
    pose proof (missing_columns_nil df Hmiss) as Hall.
    assert ("rsid" ∈ columns df) as Hrsid.
    { eapply Forall_forall in Hall; [done|]. unfold REQUIRED_COLUMNS. left. }
    unfold getitem in Hret.
    destruct (find_column_is_Some df "rsid" Hrsid) as [xs Hfind].
    rewrite Hfind in Hret.
    destruct (select_required_returns
                (keep (isin xs (list_to_set (r :: L)))) df Hmiss) as [out Hout].
    change (select (on_rows (keep (isin xs (list_to_set (r :: L)))) df)
              REQUIRED_COLUMNS = Raise e) in Hret.
    congruence.
  - rewrite query_gwas_duckdb_connect in Hret by done.
    destruct (duckdb_connect fs p) as [con0|e'];
      [|injection Hret as <-; eexists; split; [done | by rewrite prefix_append]].
    destruct (duckdb_load _ con0) as [[df|e'] con];
      [|injection Hret as <-; eexists; split; [done | by rewrite prefix_append]].
    destruct (missing_columns df) eqn:Hmiss;
      [|injection Hret as <-; eexists; split; [done | by rewrite prefix_append]].
    exfalso. cbn [result_of] in Hret.
    destruct (select_required_returns (λ xs, xs) df Hmiss) as [out Hout].
    rewrite on_rows_id in Hout. congruence.
Qed.

Lemma only_GWASQueryError_is_raised_witness :
  ∃ msg, GWASQueryError "Missing required columns: beta" = GWASQueryError msg
       ∧ (String.prefix "File does not exist: " msg
          || String.prefix "Unsupported file type: " msg
          || String.prefix "Failed to load GWAS file: " msg
          || String.prefix "Missing required columns: " msg = true).
Proof.
  apply (only_GWASQueryError_is_raised
           (sample_fs (drop_column "beta" (make_gwas_df ["rs1"])))
           "gwas.parquet" ["rs1"]).
  vm_compute. reflexivity.
Defined.

(** A call fails with the not-found error exactly when the path does not
    exist: whatever the extension and the identifier list, the empty list
    included, and no other failure carries that message. *)
Theorem not_found_iff_path_missing (fs : gmap string file) (p : string)
    (L : list string) :
  result_of (query_gwas fs p L)
  = Raise (GWASQueryError ("File does not exist: " +:+ p))
  ↔ fs !! p = None.
Proof.
  split; [|intros Hnone; by rewrite query_gwas_not_found].
  intros Hret. destruct (fs !! p) as [f|] eqn:Hfile; [exfalso|done].
  assert (is_Some (fs !! p)) as Hsome by (by rewrite Hfile).
  destruct (decide (extension p ∈ recognized)) as [Hext|Hext]; cycle 1.
  { by rewrite query_gwas_unsupported in Hret. }
  destruct L as [|r L]; [by rewrite query_gwas_empty in Hret|].
  apply recognized_cases in Hext as [Hext|Hext].
  - rewrite query_gwas_parquet in Hret by done.
    destruct (read_parquet fs p) as [df|e']; [|done].
    destruct (missing_columns df); [|done]. cbn [result_of] in Hret.
    unfold getitem in Hret.
    destruct (find_column df "rsid") as [[c xs]|]; [|done].
    change (select (on_rows (keep (isin xs (list_to_set (r :: L)))) df)
              REQUIRED_COLUMNS = Raise (GWASQueryError ("File does not exist: " +:+ p)))
      in Hret.
    by apply select_raises_KeyError in Hret as [c' ?].
  - rewrite query_gwas_duckdb_connect in Hret by done.
    destruct (duckdb_connect fs p) as [con0|e']; [|done].
    destruct (duckdb_load _ con0) as [[df|e'] con]; [|done].
    destruct (missing_columns df); [|done].
    by apply select_raises_KeyError in Hret as [c' ?].
Qed.

Lemma bind_return {A B} (m : DB A) (f : A → DB B) (con con' : connection) (b : B) :
  (m ≫= f) con = (Return b, con') →
  ∃ a con1, m con = (Return a, con1) ∧ f a con1 = (Return b, con').
Proof.
  rewrite bind_run. destruct (m con) as [[a|e] con1]; [eauto | done].
Qed.

Lemma duckdb_load_return_closed (L : list string) (con0 con : connection)
    (df : DataFrame) :
  duckdb_load L con0 = (Return df, con) →
  is_open con = false ∧ filter_rsid con = None.
Proof.
  unfold duckdb_load. intros Hrun.
  apply bind_return in Hrun as (tables & c1 & _ & Hrun).
  apply bind_return in Hrun as (table & c2 & _ & Hrun).
  apply bind_return in Hrun as (u1 & c3 & _ & Hrun).
  apply bind_return in Hrun as (u2 & c4 & _ & Hrun).
  apply bind_return in Hrun as (df' & c5 & _ & Hrun).
  apply bind_return in Hrun as (u3 & c6 & Hclose & Hrun).
  unfold mret, DB_ret in Hrun. unfold close in Hclose.
  injection Hrun as _ <-. by injection Hclose as _ <-.
Qed.

Lemma duckdb_load_raise_open (L : list string)
    (tables : list (string * DataFrame)) (con : connection) (e : exn) :
  duckdb_load L (connect tables) = (Raise e, con) → is_open con = true.
Proof.
  intros Hrun. destruct tables as [|[first T0] rest].
  - rewrite duckdb_load_no_tables in Hrun. by injection Hrun as _ <-.
  - by destruct (duckdb_load_sent _ L first T0 rest _ con eq_refl Hrun)
      as (k & tail & _ & _ & -> & _).
Qed.

(** The connection a call has opened is closed, and its temporary table
    gone, when the call returns a table and when it fails the column
    check; it is still open exactly when the call fails with the load
    failure of line 86. *)
Theorem connection_open_iff_load_failed (fs : gmap string file) (p : string)
    (L : list string) (con : connection) :
  connection_of (query_gwas fs p L) = Some con →
  match result_of (query_gwas fs p L) with
  | Raise (GWASQueryError msg) =>
      if String.prefix "Failed to load GWAS file: " msg
      then is_open con = true
      else is_open con = false ∧ filter_rsid con = None
  | _ => is_open con = false ∧ filter_rsid con = None
  end.
Proof.
  destruct (fs !! p) as [f|] eqn:Hfile;
    [|by rewrite query_gwas_not_found].
  assert (is_Some (fs !! p)) as Hsome by (by rewrite Hfile).
  destruct (decide (extension p ∈ recognized)) as [Hext|Hext];
    [|by rewrite query_gwas_unsupported].
  destruct L as [|r L]; [by rewrite query_gwas_empty|].
  apply recognized_cases in Hext as [Hext|Hext].
  { rewrite query_gwas_parquet by done.
    destruct (read_parquet fs p) as [df|e']; [|done].
    by destruct (missing_columns df). }
  rewrite query_gwas_duckdb_connect by done.
  unfold duckdb_connect. rewrite Hfile.
  destruct f as [|tables|]; try done.
  destruct (duckdb_load (r :: L) (connect tables)) as [[df|e] con'] eqn:Hrun.
  - apply duckdb_load_return_closed in Hrun.
    destruct (missing_columns df) eqn:Hmiss; intros [= <-]; cbn [result_of]; [|done].
    destruct (select df REQUIRED_COLUMNS) as [out|e] eqn:Hsel; [done|].
    by apply select_raises_KeyError in Hsel as [c ->].
  - apply duckdb_load_raise_open in Hrun. intros [= <-]. cbn [result_of].
    by rewrite prefix_append.
Qed.

Lemma connection_open_iff_load_failed_witness :
  is_open (Connection [("associations_clean", make_gwas_df ["rs1"])] (Some []) true
             [ShowTables; CreateTempTable; InsertValues "('rs'1')"]) = true.
Proof.
  apply (connection_open_iff_load_failed (sample_fs (make_gwas_df ["rs1"]))
           "gwas.duckdb" ["rs'1"]).
  vm_compute. reflexivity.
Defined.

(** * The genotype loader *)

Lemma lower_char_idempotent (c : ascii) : lower_char (lower_char c) = lower_char c.
Proof. destruct c as [[] [] [] [] [] [] [] []]; reflexivity. Qed.

Lemma lower_idempotent (s : string) : lower (lower s) = lower s.
Proof.
  induction s as [|c s IH]; [done|]. simpl. by rewrite lower_char_idempotent, IH.
Qed.

Lemma columns_set_columns (df : DataFrame) (labels : list string) :
  length labels = length df → columns (Genotype.set_columns df labels) = labels.
Proof.
  intros Hlen. unfold columns, Genotype.set_columns.
  apply fst_zip. rewrite length_fmap. lia.
Qed.

Lemma set_columns_lower (df : DataFrame) :
  Genotype.set_columns df (lower <$> columns df)
  = (λ col, (lower col.1, col.2)) <$> df.
Proof.
  unfold Genotype.set_columns, columns.
  induction df as [|[c xs] df IH]; [done|].
  rewrite !fmap_cons. simpl. by rewrite IH.
Qed.

Lemma columns_setitem (df : DataFrame) (label : string) (values : list cell) :
  columns (Genotype.setitem df label values)
  = if bool_decide (label ∈ columns df) then columns df
    else columns df ++ [label].
Proof.
  unfold Genotype.setitem, columns. case_bool_decide as Hin.
  - rewrite <- list_fmap_compose. apply list_fmap_ext. intros i [c xs] _. simpl.
    by destruct (String.eqb_spec c label) as [->|].
  - by rewrite fmap_app.
Qed.

Lemma elem_of_setitem (df : DataFrame) (label : string) (values : list cell)
    (c : string) (xs : list cell) :
  (c, xs) ∈ df → c ≠ label → (c, xs) ∈ Genotype.setitem df label values.
Proof.
  intros Hin Hne. unfold Genotype.setitem. case_bool_decide.
  - apply list_elem_of_fmap. exists (c, xs). split; [|done]. simpl.
    by rewrite (proj2 (String.eqb_neq c label)).
  - apply elem_of_app. by left.
Qed.

(** What the body of the inner [try] returns for a frame [d] that the
    reader gave it. *)
Lemma read_with_Return (read_csv : string → string → result DataFrame) (na : cell)
    (content sep : string) (out : DataFrame) :
  Genotype.read_with read_csv na content sep = Return out →
  ∃ d, read_csv content sep = Return d
     ∧ (out = Genotype.set_columns d (lower <$> columns d)
        ∨ ∃ values,
            out = Genotype.setitem (Genotype.set_columns d (lower <$> columns d))
                    "genotype" values).
Proof.
  unfold Genotype.read_with. destruct (read_csv content sep) as [d|e]; [|done].
  intros Hret. exists d. split; [done|]. cbn in Hret.
  destruct (_ && _); [|left; by injection Hret].
  destruct (_ && _); [|done].
  destruct (getitem _ "allele1") as [a1|]; [|done].
  destruct (getitem _ "allele2") as [a2|]; [|done].
  right. eexists. by injection Hret.
Qed.

Lemma try_separators_Some (read_csv : string → string → result DataFrame) (na : cell)
    (content : string) (seps : list string) (out : DataFrame) :
  Genotype.try_separators read_csv na content seps = Some out →
  ∃ sep, sep ∈ seps ∧ Genotype.read_with read_csv na content sep = Return out.
Proof.
  induction seps as [|sep seps IH]; [done|]. simpl.
  destruct (Genotype.read_with read_csv na content sep) as [df|e] eqn:Hread.
  - intros [= <-]. exists sep. split; [left | done].
  - intros Hrest. destruct (IH Hrest) as (sep' & Hin & Hret).
    exists sep'. split; [by right | done].
Qed.

Lemma load_user_genotype_Loaded (read_csv : string → string → result DataFrame) (na : cell)
    (fs : gmap string string) (p : string) (out : DataFrame) :
  Genotype.load_user_genotype read_csv na fs p = Genotype.Loaded out →
  ∃ content sep,
    fs !! p = Some content ∧ sep ∈ [Genotype.tab; ","; " "]
    ∧ Genotype.read_with read_csv na content sep = Return out.
Proof.
  unfold Genotype.load_user_genotype.
  destruct (fs !! p) as [content|]; [|done].
  destruct (negb _); [done|].
  destruct (Genotype.try_separators _ _ _) as [df|] eqn:Htry; [|done].
  intros [= <-]. apply try_separators_Some in Htry as (sep & Hin & Hret). eauto.
Qed.

(** Every label of a frame the loader returns is in lower case, whatever
    the case of the header of the file. *)
Theorem genotype_labels_are_lower_case
    (read_csv : string → string → result DataFrame) (na : cell) (fs : gmap string string)
    (p : string) (out : DataFrame) :
  Genotype.load_user_genotype read_csv na fs p = Genotype.Loaded out →
  Forall (λ c, lower c = c) (columns out).
Proof.
  intros Hload.
  apply load_user_genotype_Loaded in Hload as (content & sep & _ & _ & Hret).
  apply read_with_Return in Hret as (d & _ & Hout).
  assert (Forall (λ c, lower c = c)
            (columns (Genotype.set_columns d (lower <$> columns d)))) as Hlow.
  { rewrite columns_set_columns by (unfold columns; by rewrite !length_fmap).
    apply Forall_fmap, Forall_forall. intros c _. apply lower_idempotent. }
  destruct Hout as [->|[values ->]]; [done|].
  rewrite columns_setitem. case_bool_decide; [done|].
  apply Forall_app. split; [done|]. by apply Forall_singleton.
Qed.

Lemma genotype_labels_are_lower_case_witness :
  Forall (λ c, lower c = c) ["rsid"; "allele1"; "allele2"; "genotype"].
Proof.
  apply (genotype_labels_are_lower_case Genotype.sample_reader (Text "nan")
           Genotype.sample_files "capitals.TXT"
           [("rsid", [Text "rs1"]); ("allele1", [Text "A"]); ("allele2", [NA]);
            ("genotype", [Text "Anan"])]).
  vm_compute. reflexivity.
Defined.

(** The loader returns what the reader parsed under one of the three
    separators, with nothing taken away: every column of the parsed frame
    other than a [genotype] column is in the result under its lower-cased
    label, with all its cells.  No column is selected, no row with a
    missing value is dropped, and no column is required to be there. *)
Theorem genotype_frame_keeps_every_column
    (read_csv : string → string → result DataFrame) (na : cell) (fs : gmap string string)
    (p : string) (out : DataFrame) :
  Genotype.load_user_genotype read_csv na fs p = Genotype.Loaded out →
  ∃ content sep d,
    fs !! p = Some content ∧ sep ∈ [Genotype.tab; ","; " "]
    ∧ read_csv content sep = Return d
    ∧ (columns out = lower <$> columns d
       ∨ columns out = (lower <$> columns d) ++ ["genotype"])
    ∧ ∀ c xs, (c, xs) ∈ d → lower c ≠ "genotype" → (lower c, xs) ∈ out.
Proof.
  intros Hload.
  apply load_user_genotype_Loaded in Hload as (content & sep & Hfile & Hsep & Hret).
  apply read_with_Return in Hret as (d & Hread & Hout).
  exists content, sep, d. split; [done|]. split; [done|]. split; [done|].
  assert (columns (Genotype.set_columns d (lower <$> columns d))
          = lower <$> columns d) as Hcols.
  { apply columns_set_columns. unfold columns. by rewrite !length_fmap. }
  assert (∀ c xs, (c, xs) ∈ d →
            (lower c, xs) ∈ Genotype.set_columns d (lower <$> columns d)) as Hkeep.
  { intros c xs Hin. rewrite set_columns_lower.
    apply list_elem_of_fmap. by exists (c, xs). }
  destruct Hout as [->|[values ->]].
  - split; [by left|]. intros c xs Hin _. by apply Hkeep.
  - split.
    + rewrite columns_setitem, Hcols. case_bool_decide; [by left | by right].
    + intros c xs Hin Hne. apply elem_of_setitem; [by apply Hkeep | done].
Qed.

Lemma genotype_frame_keeps_every_column_witness :
  ∃ content sep d,
    Genotype.sample_files !! "piped.csv" = Some content
    ∧ sep ∈ [Genotype.tab; ","; " "]
    ∧ Genotype.sample_reader content sep = Return d
    ∧ (columns [("rsid|genotype", [Text "rs1|AA"])] = lower <$> columns d
       ∨ columns [("rsid|genotype", [Text "rs1|AA"])]
         = (lower <$> columns d) ++ ["genotype"])
    ∧ ∀ c xs, (c, xs) ∈ d → lower c ≠ "genotype" →
              (lower c, xs) ∈ [("rsid|genotype", [Text "rs1|AA"])].
Proof.
  apply (genotype_frame_keeps_every_column Genotype.sample_reader (Text "nan")
           Genotype.sample_files "piped.csv").
  vm_compute. reflexivity.
Defined.

Lemma find_column_distinct (df : DataFrame) (c : string) (xs : list cell) :
  NoDup (columns df) → (c, xs) ∈ df → find_column df c = Some (c, xs).
Proof.
  unfold columns. induction df as [|[c' xs'] df IH]; intros Hdistinct Hin.
  { by apply elem_of_nil in Hin. }
  rewrite fmap_cons in Hdistinct. apply NoDup_cons in Hdistinct as [Hc' Hdistinct].
  simpl. apply elem_of_cons in Hin as [[= -> ->]|Hin].
  { by rewrite String.eqb_refl. }
  destruct (String.eqb_spec c' c) as [->|Hne]; [|by apply IH].
  destruct Hc'. simpl. apply list_elem_of_fmap. by exists (c, xs).
Qed.

Lemma find_column_setitem (df : DataFrame) (label : string) (values : list cell) :
  find_column (Genotype.setitem df label values) label = Some (label, values).
Proof.
  unfold Genotype.setitem. case_bool_decide as Hin.
  - unfold columns in Hin. induction df as [|[c xs] df IH].
    { by apply elem_of_nil in Hin. }
    rewrite fmap_cons. simpl.
    destruct (String.eqb_spec c label) as [->|Hne]; simpl.
    + by rewrite String.eqb_refl.
    + rewrite (proj2 (String.eqb_neq c label)) by done. apply IH.
      rewrite fmap_cons in Hin. apply elem_of_cons in Hin as [?|?]; [|done].
      simpl in *. congruence.
  - apply find_column_None in Hin.
    induction df as [|[c xs] df IH]; simpl in *.
    { by rewrite String.eqb_refl. }
    destruct (String.eqb c label); [done | by apply IH].
Qed.

Lemma once_distinct (labels : list string) (label : string) :
  NoDup labels → label ∈ labels → Genotype.once label labels = true.
Proof.
  unfold Genotype.once. intros Hdistinct Hin. apply Nat.eqb_eq.
  induction Hdistinct as [|c labels Hc _ IH]; [by apply elem_of_nil in Hin|].
  rewrite filter_cons. apply elem_of_cons in Hin as [->|Hin].
  - rewrite decide_True by done. simpl. f_equal.
    destruct (filter (λ c0, c0 = c) labels) as [|x l] eqn:Hf; [done|].
    assert (x ∈ filter (λ c0, c0 = c) labels) as Hx by (rewrite Hf; left).
    apply list_elem_of_filter in Hx as [-> Hx]. done.
  - rewrite decide_False by (intros ->; done). by apply IH.
Qed.

(** When the reader, under the first separator that works, finds the
    columns [rsid], [allele1] and [allele2] (in any letter case, each
    label once), the returned frame has a [genotype] column with one cell
    for each row: where both alleles are there, the first followed by the
    second.  Where an allele is missing, the cell follows the release of
    pandas: it is missing when [astype(str)] leaves a missing cell
    missing, and otherwise holds the two texts joined, with the text that
    [astype(str)] puts for the missing one.  A [genotype] column of the
    file is overwritten. *)
Theorem genotype_is_allele_concatenation
    (read_csv : string → string → result DataFrame) (na : cell)
    (fs : gmap string string)
    (p content : string) (d : DataFrame) (c1 c2 : string) (a1 a2 : list cell) :
  fs !! p = Some content →
  lower (splitext p).2 = ".txt" ∨ lower (splitext p).2 = ".csv" →
  read_csv content Genotype.tab = Return d →
  NoDup (lower <$> columns d) →
  "rsid" ∈ lower <$> columns d →
  (c1, a1) ∈ d → lower c1 = "allele1" →
  (c2, a2) ∈ d → lower c2 = "allele2" →
  ∃ out g,
    Genotype.load_user_genotype read_csv na fs p = Genotype.Loaded out
    ∧ find_column out "genotype" = Some ("genotype", g)
    ∧ length g = length a1 `min` length a2
    ∧ (∀ i s t, a1 !! i = Some (Text s) → a2 !! i = Some (Text t) →
                g !! i = Some (Text (s +:+ t)))
    ∧ (∀ i x y, a1 !! i = Some x → a2 !! i = Some y → x = NA ∨ y = NA →
                g !! i
                = Some match na with
                       | NA => NA
                       | Text m =>
                           Text (match x with Text s => s | NA => m end
                                 +:+ match y with Text t => t | NA => m end)
                       end).
Proof.
  intros Hfile Hext Hread Hdistinct Hrsid Hc1 Hl1 Hc2 Hl2.
  unfold Genotype.load_user_genotype. rewrite Hfile. cbv zeta.
  rewrite bool_decide_eq_true_2
    by (destruct Hext as [-> | ->]; [left | right; left]).
  cbn [negb Genotype.try_separators]. unfold Genotype.read_with at 1.
  rewrite Hread. cbn [mbind result_bind]. cbv zeta.
  set (df := Genotype.set_columns d (lower <$> columns d)).
  assert (columns df = lower <$> columns d) as Hcols.
  { apply columns_set_columns. unfold columns. by rewrite !length_fmap. }
  assert (∀ c xs, (c, xs) ∈ d → find_column df (lower c) = Some (lower c, xs))
    as Hfind.
  { intros c xs Hin. apply find_column_distinct; [by rewrite Hcols|].
    subst df. rewrite set_columns_lower. apply list_elem_of_fmap. by exists (c, xs). }
  assert ("allele1" ∈ lower <$> columns d) as Hin1.
  { rewrite <- Hl1. apply list_elem_of_fmap. exists c1. split; [done|].
    apply list_elem_of_fmap. by exists (c1, a1). }
  assert ("allele2" ∈ lower <$> columns d) as Hin2.
  { rewrite <- Hl2. apply list_elem_of_fmap. exists c2. split; [done|].
    apply list_elem_of_fmap. by exists (c2, a2). }
  rewrite !bool_decide_eq_true_2 by done.
  rewrite !once_distinct by done. cbn [andb].
  assert (getitem df "allele1" = Return a1) as ->.
  { unfold getitem. rewrite <- Hl1. by rewrite (Hfind c1 a1 Hc1). }
  assert (getitem df "allele2" = Return a2) as ->.
  { unfold getitem. rewrite <- Hl2. by rewrite (Hfind c2 a2 Hc2). }
  cbn [mbind result_bind mret result_ret].
  eexists _, _. split; [done|]. split; [apply find_column_setitem|].
  unfold Genotype.series_add. split; [|split].
  - by rewrite length_zip_with, !length_fmap.
  - intros i s t H1 H2.
    by rewrite lookup_zip_with, !list_lookup_fmap, H1, H2.
  - intros i x y H1 H2 Hmissing.
    rewrite lookup_zip_with, !list_lookup_fmap, H1, H2. cbn.
    destruct Hmissing as [-> | ->]; destruct na as [m|]; cbn;
      first [ by destruct y | by destruct x ].
Qed.

Lemma genotype_is_allele_concatenation_witness :
  ∃ out g,
    Genotype.load_user_genotype Genotype.sample_reader NA Genotype.sample_files
      "capitals.TXT" = Genotype.Loaded out
    ∧ find_column out "genotype" = Some ("genotype", g)
    ∧ length g = length [Text "A"] `min` length [NA]
    ∧ (∀ i s t, [Text "A"] !! i = Some (Text s) → [NA] !! i = Some (Text t) →
                g !! i = Some (Text (s +:+ t)))
    ∧ (∀ i x y, [Text "A"] !! i = Some x → [NA] !! i = Some y →
                x = NA ∨ y = NA →
                g !! i
                = Some match NA with
                       | NA => NA
                       | Text m =>
                           Text (match x with Text s => s | NA => m end
                                 +:+ match y with Text t => t | NA => m end)
                       end).
Proof.
  apply (genotype_is_allele_concatenation Genotype.sample_reader NA
           Genotype.sample_files "capitals.TXT" Genotype.capitals
           [("RSID", [Text "rs1"]); ("Allele1", [Text "A"]); ("Allele2", [NA])]
           "Allele1" "Allele2").
  - vm_compute. reflexivity.
  - left. reflexivity.
  - vm_compute. reflexivity.
  - refine (bool_decide_unpack (NoDup ["rsid"; "allele1"; "allele2"]) _).
    vm_compute. exact I.
  - left.
  - right. left.
  - reflexivity.
  - right. right. left.
  - reflexivity.
Defined.

Lemma try_separators_None (read_csv : string → string → result DataFrame) (na : cell)
    (content : string) (seps : list string) :
  Genotype.try_separators read_csv na content seps = None →
  ∀ sep, sep ∈ seps → ∃ e, Genotype.read_with read_csv na content sep = Raise e.
Proof.
  induction seps as [|sep0 seps IH]; [by intros _ sep ?%elem_of_nil|]. simpl.
  destruct (Genotype.read_with read_csv na content sep0) as [df|e] eqn:Hread; [done|].
  intros Hrest sep [->|Hin]%elem_of_cons; [eauto | by apply IH].
Qed.

(** The loader fails in three ways only.  A missing file gives the
    not-found message; an existing file whose lower-cased extension is
    neither [.txt] nor [.csv] gives the unsupported-type message; and when
    the body of the inner [try] has raised for the tab, the comma and the
    blank, the message of line 44 comes back behind the prefix of line 46.
    The checks of lines 48-57 (required columns, empty data) never raise. *)
Theorem genotype_failures (read_csv : string → string → result DataFrame) (na : cell)
    (fs : gmap string string) (p msg : string) :
  Genotype.load_user_genotype read_csv na fs p = Genotype.GenotypeFileError msg →
  (fs !! p = None ∧ msg = "File not found: " +:+ p)
  ∨ (is_Some (fs !! p)
     ∧ lower (splitext p).2 ≠ ".txt" ∧ lower (splitext p).2 ≠ ".csv"
     ∧ msg = "Unsupported file type: " +:+ lower (splitext p).2
             +:+ ". Only .txt and .csv are supported.")
  ∨ (∃ content,
       fs !! p = Some content
       ∧ (lower (splitext p).2 = ".txt" ∨ lower (splitext p).2 = ".csv")
       ∧ msg = "Error reading file: Could not parse file with expected delimiters."
       ∧ ∀ sep, sep ∈ [Genotype.tab; ","; " "] →
                ∃ e, Genotype.read_with read_csv na content sep = Raise e).
Proof.
  unfold Genotype.load_user_genotype.
  destruct (fs !! p) as [content|]; [|intros [= <-]; by left].
  cbv zeta. case_bool_decide as Hext.
  - cbn [negb].
    destruct (Genotype.try_separators _ _ _) as [df|] eqn:Htry; [done|].
    intros [= <-]. do 2 right. exists content. split; [done|].
    split; [|split; [done | by apply try_separators_None]].
    apply elem_of_cons in Hext as [?|Hext]; [by left|].
    apply list_elem_of_singleton in Hext. by right.
  - intros [= <-]. right. left. split; [done|].
    rewrite !not_elem_of_cons in Hext. destruct Hext as (? & ? & _). done.
Qed.

Lemma genotype_failures_witness :
  (Genotype.sample_files !! "empty.csv" = None
   ∧ "Error reading file: Could not parse file with expected delimiters."
     = "File not found: " +:+ "empty.csv")
  ∨ (is_Some (Genotype.sample_files !! "empty.csv")
     ∧ lower (splitext "empty.csv").2 ≠ ".txt"
     ∧ lower (splitext "empty.csv").2 ≠ ".csv"
     ∧ "Error reading file: Could not parse file with expected delimiters."
       = "Unsupported file type: " +:+ lower (splitext "empty.csv").2
         +:+ ". Only .txt and .csv are supported.")
  ∨ (∃ content,
       Genotype.sample_files !! "empty.csv" = Some content
       ∧ (lower (splitext "empty.csv").2 = ".txt"
          ∨ lower (splitext "empty.csv").2 = ".csv")
       ∧ "Error reading file: Could not parse file with expected delimiters."
         = "Error reading file: Could not parse file with expected delimiters."
       ∧ ∀ sep, sep ∈ [Genotype.tab; ","; " "] →
                ∃ e, Genotype.read_with Genotype.sample_reader (Text "nan") content sep = Raise e).
Proof.
  apply (genotype_failures Genotype.sample_reader (Text "nan") Genotype.sample_files "empty.csv").
  vm_compute. reflexivity.
Defined.

(** * The ontology loader *)

Lemma foldl_visit (g : Efo.graph) (l : list Efo.node)
    (acc : list Efo.term * list Efo.synonym_row * list Efo.relationship) :
  foldl (Efo.visit g) acc l
  = (acc.1.1 ++ (Efo.term_of g <$> filter (λ s, Efo.is_BNode s = false) l),
     acc.1.2 ++ (filter (λ s, Efo.is_BNode s = false) l ≫= Efo.synonyms_of g),
     acc.2 ++ (filter (λ s, Efo.is_BNode s = false) l ≫= Efo.relationships_of g)).
Proof.
  revert acc. induction l as [|s l IH]; intros [[ts ss] rs].
  { simpl. by rewrite !app_nil_r. }
  simpl. rewrite IH. unfold Efo.visit. rewrite filter_cons.
  destruct (Efo.is_BNode s) eqn:Hs.
  - by rewrite decide_False.
  - rewrite decide_True by done. rewrite fmap_cons, !bind_cons. simpl.
    by rewrite <- !app_assoc.
Qed.

Lemma parse_efo_owl_eq (g : Efo.graph) :
  Efo.parse_efo_owl g
  = (Efo.term_of g <$> Efo.named_classes g,
     Efo.named_classes g ≫= Efo.synonyms_of g,
     Efo.named_classes g ≫= Efo.relationships_of g).
Proof. unfold Efo.parse_efo_owl. by rewrite foldl_visit. Qed.

Lemma elem_of_subjects (g : Efo.graph) (p o s : Efo.node) :
  s ∈ Efo.subjects g p o ↔ (s, p, o) ∈ g.
Proof.
  unfold Efo.subjects. rewrite list_elem_of_fmap. split.
  - intros ([[s' p'] o'] & -> & Hin). apply list_elem_of_filter in Hin.
    destruct Hin as [[Hp Ho] Hin]. simpl in *. subst. by apply elem_of_elements.
  - intros Hin. exists (s, p, o). split; [done|].
    apply list_elem_of_filter. split; [done | by apply elem_of_elements].
Qed.

Lemma elem_of_objects (g : Efo.graph) (s p o : Efo.node) :
  o ∈ Efo.objects g s p ↔ (s, p, o) ∈ g.
Proof.
  unfold Efo.objects. rewrite list_elem_of_fmap. split.
  - intros ([[s' p'] o'] & -> & Hin). apply list_elem_of_filter in Hin.
    destruct Hin as [[Hs Hp] Hin]. simpl in *. subst. by apply elem_of_elements.
  - intros Hin. exists (s, p, o). split; [done|].
    apply list_elem_of_filter. split; [done | by apply elem_of_elements].
Qed.

Lemma elem_of_named_classes (g : Efo.graph) (s : Efo.node) :
  s ∈ Efo.named_classes g
  ↔ (s, Efo.RDF_type, Efo.OWL_Class) ∈ g ∧ Efo.is_BNode s = false.
Proof.
  unfold Efo.named_classes. rewrite list_elem_of_filter, elem_of_subjects. tauto.
Qed.

Lemma subjects_distinct (g : Efo.graph) (p o : Efo.node) :
  NoDup (Efo.subjects g p o).
Proof.
  unfold Efo.subjects. apply NoDup_fmap_2_strong.
  - intros [[s1 p1] o1] [[s2 p2] o2] H1 H2 Heq.
    apply list_elem_of_filter in H1 as [[? ?] _].
    apply list_elem_of_filter in H2 as [[? ?] _]. simpl in *. congruence.
  - apply NoDup_filter, NoDup_elements.
Qed.

(** The three lists the parser returns fit together: every synonym and
    every relationship belongs to a term of the first list, and every
    relationship is a [subClassOf] link. *)
Theorem efo_rows_reference_terms (g : Efo.graph) :
  Forall (λ syn, Efo.synonym_uri syn ∈ Efo.uri <$> (Efo.parse_efo_owl g).1.1)
    (Efo.parse_efo_owl g).1.2
  ∧ Forall (λ r, Efo.subject r ∈ Efo.uri <$> (Efo.parse_efo_owl g).1.1
                 ∧ Efo.predicate r = "subClassOf")
      (Efo.parse_efo_owl g).2.
Proof.
  rewrite parse_efo_owl_eq. simpl. split; apply Forall_forall.
  - intros syn Hin. apply list_elem_of_bind in Hin as (s & Hsyn & Hs).
    unfold Efo.synonyms_of in Hsyn.
    apply list_elem_of_fmap in Hsyn as (o & -> & _). simpl.
    apply list_elem_of_fmap. exists (Efo.term_of g s). split; [done|].
    apply list_elem_of_fmap. by exists s.
  - intros r Hin. apply list_elem_of_bind in Hin as (s & Hr & Hs).
    unfold Efo.relationships_of in Hr.
    apply list_elem_of_fmap in Hr as (o & -> & _). simpl. split; [|done].
    apply list_elem_of_fmap. exists (Efo.term_of g s). split; [done|].
    apply list_elem_of_fmap. by exists s.
Qed.

(** The terms are the classes of the graph that have a name: a term is
    returned exactly for the subjects typed [owl:Class] that are not blank
    nodes, with the label and the definition the graph gives them. *)
Theorem efo_terms_are_named_classes (g : Efo.graph) (t : Efo.term) :
  t ∈ (Efo.parse_efo_owl g).1.1
  ↔ ∃ s, (s, Efo.RDF_type, Efo.OWL_Class) ∈ g ∧ Efo.is_BNode s = false
       ∧ t = Efo.Term (Efo.str s)
               (Efo.text_or_None (Efo.value g s Efo.RDFS_label))
               (Efo.text_or_None (Efo.value g s Efo.hasDefinition)).
Proof.
  rewrite parse_efo_owl_eq. simpl. rewrite list_elem_of_fmap.
  split; intros (s & H1 & H2); exists s.
  - apply elem_of_named_classes in H2 as [? ?]. done.
  - destruct H2 as [? ->]. split; [done|]. by apply elem_of_named_classes.
Qed.

(** The relationships are the [subClassOf] triples of the graph between
    a named class and a named object; a superclass that is a blank node (a
    restriction) gives no row. *)
Theorem efo_relationships_are_named_links (g : Efo.graph) (r : Efo.relationship) :
  r ∈ (Efo.parse_efo_owl g).2
  ↔ ∃ s o, (s, Efo.RDF_type, Efo.OWL_Class) ∈ g
         ∧ (s, Efo.RDFS_subClassOf, o) ∈ g
         ∧ Efo.is_BNode s = false ∧ Efo.is_BNode o = false
         ∧ r = Efo.Relationship (Efo.str s) "subClassOf" (Efo.str o).
Proof.
  rewrite parse_efo_owl_eq. simpl. rewrite list_elem_of_bind. split.
  - intros (s & Hr & Hs). apply elem_of_named_classes in Hs as [Hs Hb].
    unfold Efo.relationships_of in Hr.
    apply list_elem_of_fmap in Hr as (o & -> & Ho).
    apply list_elem_of_filter in Ho as [Hbo Ho]. apply elem_of_objects in Ho.
    by exists s, o.
  - intros (s & o & Hs & Ho & Hb & Hbo & ->). exists s. split.
    + unfold Efo.relationships_of. apply list_elem_of_fmap. exists o.
      split; [done|]. apply list_elem_of_filter. split; [done|].
      by apply elem_of_objects.
    + by apply elem_of_named_classes.
Qed.

Lemma named_classes_str_distinct (g : Efo.graph) :
  (∀ s, (s, Efo.RDF_type, Efo.OWL_Class) ∈ g →
        ∀ lexical truth, s ≠ Efo.Literal lexical truth) →
  NoDup (Efo.str <$> Efo.named_classes g).
Proof.
  intros Hsubjects. apply NoDup_fmap_2_strong.
  - intros s1 s2 H1 H2 Heq.
    apply elem_of_named_classes in H1 as [H1 Hb1].
    apply elem_of_named_classes in H2 as [H2 Hb2].
    destruct s1 as [u1|b1|l1 t1], s2 as [u2|b2|l2 t2]; simpl in *; try done;
      try congruence.
    + by destruct (Hsubjects _ H2 l2 t2).
    + by destruct (Hsubjects _ H1 l1 t1).
    + by destruct (Hsubjects _ H1 l1 t1).
  - unfold Efo.named_classes. apply NoDup_filter, subjects_distinct.
Qed.

(** In a graph whose class subjects are references or blank nodes, as in
    every graph read from a file, no two terms have the same [uri]. *)
Theorem efo_term_uris_distinct (g : Efo.graph) :
  (∀ s, (s, Efo.RDF_type, Efo.OWL_Class) ∈ g →
        ∀ lexical truth, s ≠ Efo.Literal lexical truth) →
  NoDup (Efo.uri <$> (Efo.parse_efo_owl g).1.1).
Proof.
  intros Hsubjects. rewrite parse_efo_owl_eq. cbn [fst snd].
  rewrite <- list_fmap_compose. by apply named_classes_str_distinct.
Qed.

Lemma efo_term_uris_distinct_witness :
  NoDup (Efo.uri <$> (Efo.parse_efo_owl Efo.sample_graph).1.1).
Proof.
  apply (efo_term_uris_distinct Efo.sample_graph).
  intros s Hs lexical truth ->.
  apply (bool_decide_pack _) in Hs. vm_compute in Hs. destruct Hs.
Defined.

Lemma upsert_lookup_other (m : gmap string (option string * option string))
    (rows : list Efo.term) (u : string) :
  u ∉ Efo.uri <$> rows → Efo.upsert m rows !! u = m !! u.
Proof.
  revert m. induction rows as [|t rows IH]; intros m Hu; [done|].
  rewrite fmap_cons in Hu. apply not_elem_of_cons in Hu as [Hne Hu].
  unfold Efo.upsert in *. simpl. rewrite IH by done. by rewrite lookup_insert_ne.
Qed.

Lemma upsert_lookup (m : gmap string (option string * option string))
    (rows : list Efo.term) (t : Efo.term) :
  NoDup (Efo.uri <$> rows) → t ∈ rows →
  Efo.upsert m rows !! Efo.uri t = Some (Efo.label t, Efo.definition t).
Proof.
  revert m. induction rows as [|t0 rows IH]; intros m Hdistinct Hin.
  { by apply elem_of_nil in Hin. }
  rewrite fmap_cons in Hdistinct. apply NoDup_cons in Hdistinct as [Ht0 Hdistinct].
  apply elem_of_cons in Hin as [->|Hin].
  - change (Efo.upsert m (t0 :: rows))
      with (Efo.upsert (<[Efo.uri t0 := (Efo.label t0, Efo.definition t0)]> m) rows).
    rewrite upsert_lookup_other by done. by rewrite lookup_insert_eq.
  - by apply IH.
Qed.

Lemma upsert_union (m : gmap string (option string * option string))
    (rows : list Efo.term) :
  Efo.upsert m rows = Efo.upsert ∅ rows ∪ m.
Proof.
  revert m. induction rows as [|t rows IH]; intros m.
  { unfold Efo.upsert. simpl. by rewrite (left_id_L ∅ (∪)). }
  change (Efo.upsert m (t :: rows))
    with (Efo.upsert (<[Efo.uri t := (Efo.label t, Efo.definition t)]> m) rows).
  change (Efo.upsert ∅ (t :: rows))
    with (Efo.upsert (<[Efo.uri t := (Efo.label t, Efo.definition t)]> ∅) rows).
  rewrite (IH (<[_ := _]> m)), (IH (<[_ := _]> ∅)).
  rewrite <- (assoc_L (∪)). f_equal.
  by rewrite insert_union_singleton_l, insert_empty.
Qed.

Lemma upsert_twice (m : gmap string (option string * option string))
    (rows : list Efo.term) :
  Efo.upsert (Efo.upsert m rows) rows = Efo.upsert m rows.
Proof.
  rewrite (upsert_union (Efo.upsert m rows)), (upsert_union m).
  by rewrite (assoc_L (∪)), (idemp_L (∪)).
Qed.

Lemma upsert_size (m : gmap string (option string * option string))
    (rows : list Efo.term) :
  NoDup (Efo.uri <$> rows) →
  (∀ t, t ∈ rows → m !! Efo.uri t = None) →
  size (Efo.upsert m rows) = size m + length rows.
Proof.
  revert m. induction rows as [|t rows IH]; intros m Hdistinct Hfresh.
  { unfold Efo.upsert. simpl. lia. }
  rewrite fmap_cons in Hdistinct. apply NoDup_cons in Hdistinct as [Ht Hdistinct].
  change (Efo.upsert m (t :: rows))
    with (Efo.upsert (<[Efo.uri t := (Efo.label t, Efo.definition t)]> m) rows).
  rewrite IH; [|done|].
  - rewrite map_size_insert_None by (apply Hfresh; left). simpl. lia.
  - intros t' Hin. rewrite lookup_insert_ne; [apply Hfresh; by right|].
    intros Heq. apply Ht. rewrite Heq. apply list_elem_of_fmap. by exists t'.
Qed.

Lemma insert_data_created (db : Efo.database) (t : Efo.term) (terms : list Efo.term)
    (synonyms : list Efo.synonym_row) (relationships : list Efo.relationship) :
  Efo.insert_data (Efo.create_schema db) (t :: terms) synonyms relationships
  = Efo.Done
      (Efo.Database
         (Some (Efo.upsert (default ∅ (Efo.efo_term db)) (t :: terms)))
         (Some (default [] (Efo.efo_synonym db) ++ synonyms))
         (Some (default [] (Efo.efo_relationship db) ++ relationships))).
Proof.
  unfold Efo.insert_data, Efo.create_schema.
  destruct synonyms, relationships; simpl; by rewrite ?app_nil_r.
Qed.

(** After the schema has been created, inserting terms with distinct
    [uri]s ends normally; the term table then gives back, under every
    inserted [uri], the label and the definition of that term, and keeps
    what it had under every other [uri]; the synonyms and relationships are
    appended to the rows already there. *)
Theorem efo_insert_then_lookup (db : Efo.database) (terms : list Efo.term)
    (synonyms : list Efo.synonym_row) (relationships : list Efo.relationship)
    (t : Efo.term) :
  NoDup (Efo.uri <$> terms) → t ∈ terms →
  ∃ table,
    Efo.insert_data (Efo.create_schema db) terms synonyms relationships
    = Efo.Done
        (Efo.Database (Some table)
           (Some (default [] (Efo.efo_synonym db) ++ synonyms))
           (Some (default [] (Efo.efo_relationship db) ++ relationships)))
    ∧ table !! Efo.uri t = Some (Efo.label t, Efo.definition t)
    ∧ ∀ u, u ∉ Efo.uri <$> terms → table !! u = default ∅ (Efo.efo_term db) !! u.
Proof.
  intros Hdistinct Hin. destruct terms as [|t0 terms].
  { by apply elem_of_nil in Hin. }
  eexists. split; [apply insert_data_created|]. split.
  - by apply upsert_lookup.
  - intros u Hu. by apply upsert_lookup_other.
Qed.

Lemma efo_insert_then_lookup_witness :
  ∃ table,
    Efo.insert_data (Efo.create_schema Efo.empty_database)
      [Efo.Term "EFO_1" (Some "disease") None; Efo.Term "EFO_2" None None]
      [Efo.Synonym "EFO_1" "illness"] []
    = Efo.Done
        (Efo.Database (Some table)
           (Some (default [] (Efo.efo_synonym Efo.empty_database)
                  ++ [Efo.Synonym "EFO_1" "illness"]))
           (Some (default [] (Efo.efo_relationship Efo.empty_database) ++ [])))
    ∧ table !! Efo.uri (Efo.Term "EFO_2" None None)
      = Some (Efo.label (Efo.Term "EFO_2" None None),
              Efo.definition (Efo.Term "EFO_2" None None))
    ∧ ∀ u, u ∉ Efo.uri <$> [Efo.Term "EFO_1" (Some "disease") None;
                            Efo.Term "EFO_2" None None] →
           table !! u = default ∅ (Efo.efo_term Efo.empty_database) !! u.
Proof.
  apply (efo_insert_then_lookup Efo.empty_database
           [Efo.Term "EFO_1" (Some "disease") None; Efo.Term "EFO_2" None None]).
  - refine (bool_decide_unpack (NoDup ["EFO_1"; "EFO_2"]) _). vm_compute. exact I.
  - right. left.
Defined.

(** Loading the same ontology a second time is not a repetition without
    effect: the term table comes out as after the first load, because a
    term replaces the row of its [uri], but every synonym and every
    relationship is in its table once more. *)
Theorem efo_reload_repeats_links (g : Efo.graph) (db db1 : Efo.database) :
  Efo.main (Efo.Parsed g) db = Efo.Done db1 →
  ∃ db2,
    Efo.main (Efo.Parsed g) db1 = Efo.Done db2
    ∧ Efo.efo_term db2 = Efo.efo_term db1
    ∧ Efo.efo_synonym db2
      = (λ rows, rows ++ (Efo.parse_efo_owl g).1.2) <$> Efo.efo_synonym db1
    ∧ Efo.efo_relationship db2
      = (λ rows, rows ++ (Efo.parse_efo_owl g).2) <$> Efo.efo_relationship db1.
Proof.
  unfold Efo.main. destruct (Efo.parse_efo_owl g) as [[terms synonyms] relationships].
  destruct terms as [|t terms]; [done|].
  rewrite insert_data_created. intros [= <-].
  rewrite insert_data_created. eexists. split; [done|]. simpl.
  split; [|done]. f_equal.
  exact (upsert_twice (default ∅ (Efo.efo_term db)) (t :: terms)).
Qed.

Lemma efo_reload_repeats_links_witness :
  ∃ db2,
    Efo.main (Efo.Parsed Efo.sample_graph)
      (Efo.Database
         (Some (Efo.upsert ∅ (Efo.parse_efo_owl Efo.sample_graph).1.1))
         (Some (Efo.parse_efo_owl Efo.sample_graph).1.2)
         (Some (Efo.parse_efo_owl Efo.sample_graph).2))
    = Efo.Done db2
    ∧ Efo.efo_term db2
      = Some (Efo.upsert ∅ (Efo.parse_efo_owl Efo.sample_graph).1.1)
    ∧ Efo.efo_synonym db2
      = Some ((Efo.parse_efo_owl Efo.sample_graph).1.2
              ++ (Efo.parse_efo_owl Efo.sample_graph).1.2)
    ∧ Efo.efo_relationship db2
      = Some ((Efo.parse_efo_owl Efo.sample_graph).2
              ++ (Efo.parse_efo_owl Efo.sample_graph).2).
Proof.
  apply (efo_reload_repeats_links Efo.sample_graph Efo.empty_database).
  vm_compute. reflexivity.
Defined.

(** On a database without tables, an ontology with at least one named
    class, read from a file, is loaded without failure: the term table
    gets one row for each named class and the other two tables hold the
    parsed synonyms and relationships. *)
Theorem efo_main_fills_fresh_database (g : Efo.graph) :
  Efo.named_classes g ≠ [] →
  (∀ s, (s, Efo.RDF_type, Efo.OWL_Class) ∈ g →
        ∀ lexical truth, s ≠ Efo.Literal lexical truth) →
  ∃ table,
    Efo.main (Efo.Parsed g) Efo.empty_database
    = Efo.Done (Efo.Database (Some table)
                  (Some (Efo.parse_efo_owl g).1.2)
                  (Some (Efo.parse_efo_owl g).2))
    ∧ size table = length (Efo.named_classes g)
    ∧ ∀ t, t ∈ (Efo.parse_efo_owl g).1.1 →
           table !! Efo.uri t = Some (Efo.label t, Efo.definition t).
Proof.
  intros Hnamed Hsubjects.
  pose proof (named_classes_str_distinct g Hsubjects) as Hdistinct.
  change Efo.str with (Efo.uri ∘ Efo.term_of g) in Hdistinct.
  rewrite list_fmap_compose in Hdistinct.
  unfold Efo.main. rewrite parse_efo_owl_eq. cbn [fst snd].
  rewrite <- (length_fmap (Efo.term_of g)).
  destruct (Efo.term_of g <$> Efo.named_classes g) as [|t0 terms] eqn:Hterms.
  { by destruct (Efo.named_classes g). }
  rewrite insert_data_created.
  change (default ∅ (Efo.efo_term Efo.empty_database))
    with (∅ : gmap string (option string * option string)).
  eexists. split; [reflexivity|]. split.
  - rewrite upsert_size; [by rewrite map_size_empty | done |].
    intros t _. apply lookup_empty.
  - intros t Hin. by apply upsert_lookup.
Qed.

Lemma efo_main_fills_fresh_database_witness :
  ∃ table,
    Efo.main (Efo.Parsed Efo.sample_graph) Efo.empty_database
    = Efo.Done (Efo.Database (Some table)
                  (Some (Efo.parse_efo_owl Efo.sample_graph).1.2)
                  (Some (Efo.parse_efo_owl Efo.sample_graph).2))
    ∧ size table = length (Efo.named_classes Efo.sample_graph)
    ∧ ∀ t, t ∈ (Efo.parse_efo_owl Efo.sample_graph).1.1 →
           table !! Efo.uri t = Some (Efo.label t, Efo.definition t).
Proof.
  apply (efo_main_fills_fresh_database Efo.sample_graph).
  - vm_compute. discriminate.
  - intros s Hs lexical truth ->.
    apply (bool_decide_pack _) in Hs. vm_compute in Hs. destruct Hs.
Defined.

(** * The gnomAD download *)

Lemma served_by_cons (D : string) (server : string → Vcf.response)
    (j : nat * string) (l : list (nat * string)) :
  Vcf.served_by D server (j :: l)
  = Vcf.served_by D server [j] ∪ Vcf.served_by D server l.
Proof.
  unfold Vcf.served_by. simpl.
  destruct (Vcf.stored server (Vcf.url_of j.1 j.2)) as [content|]; simpl.
  - by rewrite insert_union_singleton_l, insert_empty.
  - by rewrite (left_id_L ∅ (∪)).
Qed.

Lemma files_attempt (D : string) (server : string → Vcf.response)
    (chrom : nat) (ext : string) (w : Vcf.world) :
  Vcf.files (Vcf.attempt D server chrom ext w)
  = Vcf.files w ∪ Vcf.served_by D server [(chrom, ext)].
Proof.
  unfold Vcf.attempt, Vcf.download_file, Vcf.served_by, Vcf.stored. simpl.
  case_bool_decide as Hexists.
  - simpl. destruct Hexists as [old Hold].
    destruct (server (Vcf.url_of chrom ext)) as [e|e|chunks broken]; simpl;
      rewrite ?(right_id_L ∅ (∪)); try done.
    rewrite insert_empty. symmetry. apply map_eq. intros path.
    rewrite lookup_union. destruct (decide (path = Vcf.dest_of D chrom ext)) as [->|Hne].
    + by rewrite Hold, lookup_singleton_eq.
    + rewrite lookup_singleton_ne by done. by destruct (Vcf.files w !! path).
  - apply eq_None_not_Some in Hexists.
    destruct (server (Vcf.url_of chrom ext)) as [e|e|chunks broken]; simpl;
      rewrite ?(right_id_L ∅ (∪)); try done.
    rewrite insert_empty.
    destruct broken; simpl; by rewrite insert_union_singleton_r.
Qed.

Lemma foldl_bind {A B C} (f : A → C → A) (g : B → list C) (a : A) (l : list B) :
  foldl f a (l ≫= g) = foldl (λ a x, foldl f a (g x)) a l.
Proof.
  revert a. induction l as [|x l IH]; intros a; [done|].
  rewrite bind_cons, foldl_app. apply IH.
Qed.

Lemma foldl_pointwise {A B} (f g : A → B → A) (a : A) (l : list B) :
  (∀ a x, f a x = g a x) → foldl f a l = foldl g a l.
Proof.
  intros Hfg. revert a. induction l as [|x l IH]; intros a; [done|].
  simpl. by rewrite Hfg, IH.
Qed.

Lemma main_jobs (D : string) (server : string → Vcf.response) (w : Vcf.world) :
  Vcf.main D server w
  = foldl (λ w j, Vcf.attempt D server j.1 j.2 w) w Vcf.jobs.
Proof.
  unfold Vcf.main, Vcf.jobs. rewrite foldl_bind.
  apply foldl_pointwise. intros w' chrom. by rewrite foldl_bind.
Qed.

Lemma files_after_jobs (D : string) (server : string → Vcf.response)
    (l : list (nat * string)) (w : Vcf.world) :
  Vcf.files (foldl (λ w j, Vcf.attempt D server j.1 j.2 w) w l)
  = Vcf.files w ∪ Vcf.served_by D server l.
Proof.
  revert w. induction l as [|[chrom ext] l IH]; intros w.
  { unfold Vcf.served_by. simpl. by rewrite (right_id_L ∅ (∪)). }
  simpl foldl. rewrite IH, files_attempt.
  rewrite (served_by_cons D server (chrom, ext) l).
  by rewrite (assoc_L (∪)).
Qed.

Lemma files_after_main (D : string) (server : string → Vcf.response)
    (w : Vcf.world) :
  Vcf.files (Vcf.main D server w) = Vcf.files w ∪ Vcf.served_by D server Vcf.jobs.
Proof. rewrite main_jobs. apply files_after_jobs. Qed.

Lemma served_by_elsewhere (D : string) (server : string → Vcf.response)
    (l : list (nat * string)) (path : string) :
  path ∉ (λ j, Vcf.dest_of D j.1 j.2) <$> l →
  Vcf.served_by D server l !! path = None.
Proof.
  induction l as [|j l IH]; intros Hpath; [done|].
  rewrite fmap_cons in Hpath. apply not_elem_of_cons in Hpath as [Hne Hpath].
  rewrite served_by_cons, lookup_union, IH by done.
  unfold Vcf.served_by. simpl.
  destruct (Vcf.stored server (Vcf.url_of j.1 j.2)); simpl; [|done].
  by rewrite lookup_insert_ne.
Qed.

Lemma served_by_lookup (D : string) (server : string → Vcf.response)
    (l : list (nat * string)) (j : nat * string) :
  NoDup ((λ j, Vcf.dest_of D j.1 j.2) <$> l) → j ∈ l →
  Vcf.served_by D server l !! Vcf.dest_of D j.1 j.2
  = Vcf.stored server (Vcf.url_of j.1 j.2).
Proof.
  induction l as [|j0 l IH]; intros Hdistinct Hin.
  { by apply elem_of_nil in Hin. }
  rewrite fmap_cons in Hdistinct. apply NoDup_cons in Hdistinct as [Hj0 Hdistinct].
  rewrite served_by_cons, lookup_union.
  apply elem_of_cons in Hin as [->|Hin].
  - rewrite (served_by_elsewhere D server l) by done.
    unfold Vcf.served_by. simpl.
    destruct (Vcf.stored server (Vcf.url_of j0.1 j0.2)); simpl; [|done].
    by rewrite lookup_insert_eq.
  - rewrite IH by done.
    assert (Vcf.served_by D server [j0] !! Vcf.dest_of D j.1 j.2 = None) as ->.
    { apply served_by_elsewhere. simpl. intros Heq%list_elem_of_singleton.
      apply Hj0. rewrite <- Heq. apply list_elem_of_fmap. by exists j. }
    by destruct (Vcf.stored server (Vcf.url_of j.1 j.2)).
Qed.

Lemma destinations_distinct (D : string) :
  NoDup ((λ j, Vcf.dest_of D j.1 j.2) <$> Vcf.jobs).
Proof.
  change (λ j : nat * string, Vcf.dest_of D j.1 j.2)
    with ((λ name, D +:+ "/" +:+ name) ∘ (λ j : nat * string, Vcf.fname j.1 j.2)).
  rewrite list_fmap_compose. apply NoDup_fmap_2.
  - intros name1 name2 Heq. by do 2 apply String.app_inj in Heq.
  - refine (bool_decide_unpack _ _). vm_compute. exact I.
Qed.

Lemma elem_of_jobs (chrom : nat) (ext : string) :
  chrom ∈ Vcf.CHROMOSOMES → ext ∈ Vcf.EXTENSIONS → (chrom, ext) ∈ Vcf.jobs.
Proof.
  intros Hchrom Hext. unfold Vcf.jobs. apply list_elem_of_bind.
  exists chrom. split; [|done]. apply list_elem_of_bind.
  exists ext. split; [|done]. by apply list_elem_of_singleton.
Qed.

(** A run writes only where something is missing: a path that holds a
    file before the run, whatever its content, and a path that is not one
    of the destinations of the two loops, hold after the run what they
    held before, whatever the server answers. *)
Theorem vcf_run_writes_only_missing_destinations (D : string)
    (server : string → Vcf.response) (w : Vcf.world) (path : string) :
  is_Some (Vcf.files w !! path)
  ∨ path ∉ (λ j, Vcf.dest_of D j.1 j.2) <$> Vcf.jobs →
  Vcf.files (Vcf.main D server w) !! path = Vcf.files w !! path.
Proof.
  intros Hpath. rewrite files_after_main, lookup_union.
  destruct Hpath as [[content Hcontent]|Hpath].
  - rewrite Hcontent. by destruct (Vcf.served_by D server Vcf.jobs !! path).
  - rewrite served_by_elsewhere by done. by destruct (Vcf.files w !! path).
Qed.

Lemma vcf_run_writes_only_missing_destinations_witness :
  Vcf.files (Vcf.main "/data/vcf" Vcf.full_server Vcf.sample_world)
  !! "/data/vcf/gnomad.genomes.v3.1.2.sites.chr3.vcf.bgz"
  = Vcf.files Vcf.sample_world
    !! "/data/vcf/gnomad.genomes.v3.1.2.sites.chr3.vcf.bgz".
Proof.
  apply (vcf_run_writes_only_missing_destinations "/data/vcf" Vcf.full_server).
  left. exists "old". vm_compute. reflexivity.
Defined.

(** With a server that answers as before, a second run leaves the files
    as the first run left them: what was fetched is skipped, and what
    failed before a file was opened fails again. *)
Theorem vcf_second_run_changes_no_file (D : string)
    (server : string → Vcf.response) (w : Vcf.world) :
  Vcf.files (Vcf.main D server (Vcf.main D server w))
  = Vcf.files (Vcf.main D server w).
Proof.
  rewrite !files_after_main.
  by rewrite <- (assoc_L (∪)), (idemp_L (∪)).
Qed.

(** For a destination that is missing before the run, the run leaves
    what the server sent for its own address: the chunks received, in
    their order, when a body arrived, and no file when the request or the
    status failed.  The failures of the other downloads make no
    difference. *)
Theorem vcf_download_depends_on_own_response (D : string)
    (server : string → Vcf.response) (w : Vcf.world) (chrom : nat) (ext : string) :
  chrom ∈ Vcf.CHROMOSOMES → ext ∈ Vcf.EXTENSIONS →
  Vcf.files w !! Vcf.dest_of D chrom ext = None →
  Vcf.files (Vcf.main D server w) !! Vcf.dest_of D chrom ext
  = match server (Vcf.url_of chrom ext) with
    | Vcf.Body chunks _ => Some (foldl String.append "" chunks)
    | _ => None
    end.
Proof.
  intros Hchrom Hext Hmissing.
  pose proof (served_by_lookup D server Vcf.jobs (chrom, ext)
                (destinations_distinct D) (elem_of_jobs chrom ext Hchrom Hext))
    as Hlookup.
  cbn [fst snd] in Hlookup.
  rewrite files_after_main, lookup_union, Hmissing, Hlookup.
  unfold Vcf.stored.
  by destruct (server (Vcf.url_of chrom ext)).
Qed.

Lemma vcf_download_depends_on_own_response_witness :
  Vcf.files (Vcf.main "/data/vcf" Vcf.sample_server Vcf.sample_world)
  !! Vcf.dest_of "/data/vcf" 1 "vcf.bgz"
  = match Vcf.sample_server (Vcf.url_of 1 "vcf.bgz") with
    | Vcf.Body chunks _ => Some (foldl String.append "" chunks)
    | _ => None
    end.
Proof.
  apply (vcf_download_depends_on_own_response "/data/vcf" Vcf.sample_server
           Vcf.sample_world 1 "vcf.bgz").
  - refine (bool_decide_unpack _ _). vm_compute. exact I.
  - refine (bool_decide_unpack _ _). vm_compute. exact I.
  - vm_compute. reflexivity.
Defined.

(** A download that breaks off on the way leaves a file with the chunks
    received so far, and no later run repairs it: the file exists, so it
    is skipped, also when the server then has the whole file. *)
Theorem vcf_interrupted_download_is_kept (D : string)
    (server server' : string → Vcf.response) (w : Vcf.world)
    (chrom : nat) (ext : string) (chunks : list string) (e : string) :
  chrom ∈ Vcf.CHROMOSOMES → ext ∈ Vcf.EXTENSIONS →
  Vcf.files w !! Vcf.dest_of D chrom ext = None →
  server (Vcf.url_of chrom ext) = Vcf.Body chunks (Some e) →
  Vcf.files (Vcf.main D server' (Vcf.main D server w)) !! Vcf.dest_of D chrom ext
  = Some (foldl String.append "" chunks).
Proof.
  intros Hchrom Hext Hmissing Hbroken.
  assert (Vcf.files (Vcf.main D server w) !! Vcf.dest_of D chrom ext
          = Some (foldl String.append "" chunks)) as Hfirst.
  { pose proof (served_by_lookup D server Vcf.jobs (chrom, ext)
                  (destinations_distinct D) (elem_of_jobs chrom ext Hchrom Hext))
      as Hlookup.
    cbn [fst snd] in Hlookup.
    rewrite files_after_main, lookup_union, Hmissing, Hlookup.
    unfold Vcf.stored. by rewrite Hbroken. }
  rewrite files_after_main, lookup_union, Hfirst.
  by destruct (Vcf.served_by D server' Vcf.jobs !! Vcf.dest_of D chrom ext).
Qed.

Lemma vcf_interrupted_download_is_kept_witness :
  Vcf.files (Vcf.main "/data/vcf" Vcf.full_server
               (Vcf.main "/data/vcf" Vcf.sample_server Vcf.sample_world))
  !! Vcf.dest_of "/data/vcf" 2 "vcf.bgz.tbi"
  = Some (foldl String.append "" ["TBI"]).
Proof.
  apply (vcf_interrupted_download_is_kept "/data/vcf" Vcf.sample_server
           Vcf.full_server Vcf.sample_world 2 "vcf.bgz.tbi" ["TBI"]
           "Connection broken").
  - refine (bool_decide_unpack _ _). vm_compute. exact I.
  - refine (bool_decide_unpack _ _). vm_compute. exact I.
  - vm_compute. reflexivity.
  - vm_compute. reflexivity.
Defined.
